(** * HttpClient: a Qt network client with synchronous and asynchronous calls

    A shallow embedding of [httpclient.cpp] and [httpclient/httpclient.hpp].
    The Qt classes the client is written against are modelled by the part of
    their documented behaviour that the client relies on ([Module Qt] and the
    modules named after the QtNetwork classes); the client itself
    ([setHeaders], [onReplyFinished], [waitForResponse], [setRootCA], the
    entry points and [NetworkException]) is translated function by
    function. *)

From Stdlib Require Import List Bool NArith ZArith Lia String.
From Stdlib.Strings Require Import Byte.
Import ListNotations.

(* ===================================================================== *)
(** ** The Qt value types used by the client *)
(* ===================================================================== *)

Module Qt.

(** [QByteArray]: a sequence of bytes.  Only the contents are modelled. *)
Definition QByteArray := list byte.

(** [QChar] is one UTF-16 code unit, [QString] a sequence of them. *)
Definition QChar := N.
Definition QString := list QChar.

(** [std::string], as [QString::toStdString] produces it. *)
Definition std_string := list byte.

Definition b2n (b : byte) : N := Byte.to_N b.

Definition n2b (n : N) : byte :=
  match Byte.of_N (n mod 256) with
  | Some b => b
  | None => x00
  end.

(** A [const char*] literal used where a [QByteArray] is expected. *)
Definition bytes (s : string) : QByteArray := list_byte_of_string s.

(** [QByteArray::isEmpty], [QString::isEmpty]. *)
Definition isEmpty {A : Type} (l : list A) : bool :=
  match l with
  | [] => true
  | _ :: _ => false
  end.

(** *** UTF-8 decoding: [QString::fromUtf8]

    Well-formed sequences give their code point (as one code unit, or as a
    surrogate pair above U+FFFF).  A byte that does not start a well-formed
    sequence (a stray continuation byte, an over-long form, an encoded
    surrogate, a value above U+10FFFF, a truncated sequence) is replaced by
    U+FFFD and decoding resumes at the next byte.  A leading byte order
    mark is skipped. *)

Definition ReplacementCharacter : QChar := 0xFFFD%N.

Definition isContinuation (b : byte) : bool :=
  (N.land (b2n b) 0xC0 =? 0x80)%N.

Definition payload (b : byte) : N := N.land (b2n b) 0x3F%N.

Definition isSurrogate (c : N) : bool := ((0xD800 <=? c) && (c <=? 0xDFFF))%N.
Definition isHighSurrogate (c : N) : bool := ((0xD800 <=? c) && (c <=? 0xDBFF))%N.
Definition isLowSurrogate (c : N) : bool := ((0xDC00 <=? c) && (c <=? 0xDFFF))%N.

Definition unitsOfCodePoint (c : N) : QString :=
  if (c <? 0x10000)%N then [c]
  else [ (0xD800 + N.shiftr (c - 0x10000) 10)%N
       ; (0xDC00 + N.land (c - 0x10000) 0x3FF)%N ].

Fixpoint decodeUtf8 (bs : QByteArray) : QString :=
  match bs with
  | [] => []
  | b0 :: r0 =>
      let n0 := b2n b0 in
      let bad := ReplacementCharacter :: decodeUtf8 r0 in
      if (n0 <? 0x80)%N then n0 :: decodeUtf8 r0
      else if (n0 <? 0xC2)%N then bad
      else if (n0 <? 0xE0)%N then
        match r0 with
        | b1 :: r1 =>
            if isContinuation b1
            then (N.shiftl (N.land n0 0x1F) 6 + payload b1)%N :: decodeUtf8 r1
            else bad
        | _ => bad
        end
      else if (n0 <? 0xF0)%N then
        match r0 with
        | b1 :: b2 :: r2 =>
            let c := (N.shiftl (N.land n0 0x0F) 12
                      + N.shiftl (payload b1) 6 + payload b2)%N in
            if isContinuation b1 && isContinuation b2
               && (0x800 <=? c)%N && negb (isSurrogate c)
            then c :: decodeUtf8 r2
            else bad
        | _ => bad
        end
      else if (n0 <? 0xF5)%N then
        match r0 with
        | b1 :: b2 :: b3 :: r3 =>
            let c := (N.shiftl (N.land n0 0x07) 18
                      + N.shiftl (payload b1) 12
                      + N.shiftl (payload b2) 6 + payload b3)%N in
            if isContinuation b1 && isContinuation b2 && isContinuation b3
               && (0x10000 <=? c)%N && (c <=? 0x10FFFF)%N
            then unitsOfCodePoint c ++ decodeUtf8 r3
            else bad
        | _ => bad
        end
      else bad
  end.

Definition skipBom (bs : QByteArray) : QByteArray :=
  match bs with
  | xef :: xbb :: xbf :: rest => rest
  | _ => bs
  end.

Definition fromUtf8 (bs : QByteArray) : QString := decodeUtf8 (skipBom bs).

(** The converting constructor [QString(const QByteArray&)], which C++
    applies implicitly wherever a [QByteArray] is passed for a
    [const QString&]; it decodes the bytes as UTF-8. *)
Definition QString_of_QByteArray (ba : QByteArray) : QString := fromUtf8 ba.

(** A [const char*] literal used where a [QString] is expected. *)
Definition qstr (s : string) : QString := fromUtf8 (bytes s).

(** *** UTF-8 encoding: [QString::toUtf8]

    A surrogate pair is encoded as one four-byte sequence; a surrogate
    that is not part of a pair is encoded as '?'. *)

Definition encodeCodePoint (c : N) : QByteArray :=
  if (c <? 0x80)%N then [n2b c]
  else if (c <? 0x800)%N then
    [ n2b (0xC0 + N.shiftr c 6); n2b (0x80 + N.land c 0x3F) ]%N
  else if (c <? 0x10000)%N then
    [ n2b (0xE0 + N.shiftr c 12)
    ; n2b (0x80 + N.land (N.shiftr c 6) 0x3F)
    ; n2b (0x80 + N.land c 0x3F) ]%N
  else
    [ n2b (0xF0 + N.shiftr c 18)
    ; n2b (0x80 + N.land (N.shiftr c 12) 0x3F)
    ; n2b (0x80 + N.land (N.shiftr c 6) 0x3F)
    ; n2b (0x80 + N.land c 0x3F) ]%N.

Fixpoint toUtf8 (s : QString) : QByteArray :=
  match s with
  | [] => []
  | u :: r =>
      if isHighSurrogate u then
        match r with
        | v :: r' =>
            if isLowSurrogate v
            then encodeCodePoint
                   (0x10000 + N.shiftl (u - 0xD800) 10 + (v - 0xDC00))%N
                 ++ toUtf8 r'
            else x3f :: toUtf8 r
        | [] => [x3f]
        end
      else if isLowSurrogate u then x3f :: toUtf8 r
      else encodeCodePoint u ++ toUtf8 r
  end.

(** [QString::toStdString] is [toUtf8] copied into a [std::string]. *)
Definition toStdString (s : QString) : std_string := toUtf8 s.

(** [QString::toLocal8Bit], in a UTF-8 locale. *)
Definition toLocal8Bit (s : QString) : QByteArray := toUtf8 s.

(** What a reader of the [const char*] returned by [std::string::c_str]
    sees: the bytes up to the first NUL. *)
Fixpoint c_str (s : std_string) : list byte :=
  match s with
  | [] => []
  | b :: r => if Byte.eqb b x00 then [] else b :: c_str r
  end.

(** [QVariant], as far as reply attributes need it: invalid, or holding an
    [int].  The client only copies and compares the [int] it reads. *)
Inductive QVariant : Type :=
| Invalid : QVariant
| Int : Z -> QVariant.

(** [QVariant::toInt]: an invalid variant converts to 0. *)
Definition toInt (v : QVariant) : Z :=
  match v with
  | Invalid => 0%Z
  | Int i => i
  end.

(** Qt distinguishes a null string or byte array ([QString()]) from an empty
    one.  The client treats the two alike ([isEmpty], [append], the
    conversions of the contents), and both are modelled by the empty
    sequence, except in one place: the value of an instance header.  A null
    string is converted by [toLocal8Bit] to a null byte array, and
    [setRawHeader] takes a null value as a request to erase the header.
    There a value is [nullable], [None] being the null one. *)
Definition nullable (A : Type) : Type := option A.

(** [QString::toLocal8Bit] on a string that may be null: the null string
    gives the null byte array, any other string (the empty one too) a byte
    array that is not null. *)
Definition toLocal8Bit_nullable (s : nullable QString) : nullable QByteArray :=
  match s with
  | Some units => Some (toLocal8Bit units)
  | None => None
  end.

End Qt.

Import Qt.

(* ===================================================================== *)
(** ** The QtNetwork classes used by the client *)
(* ===================================================================== *)

(** [QNetworkRequest]: the target and the raw headers, in the order in which
    they are kept. *)
Module QNetworkRequest.

Inductive QUrl : Type := Url (url : QString).

Definition RawHeaderPair : Type := QByteArray * QByteArray.

Record t : Type := mk
  { url : QUrl
  ; rawHeaders : list RawHeaderPair }.

(** [QNetworkRequest request(qUrl)]: no raw header is set. *)
Definition new (qUrl : QUrl) : t := {| url := qUrl; rawHeaders := [] |}.

Definition toAsciiLower (b : byte) : byte :=
  let n := b2n b in
  if ((0x41 <=? n) && (n <=? 0x5A))%N then n2b (n + 0x20) else b.

Fixpoint bytes_eqb (a b : QByteArray) : bool :=
  match a, b with
  | [], [] => true
  | x :: a', y :: b' => Byte.eqb x y && bytes_eqb a' b'
  | _, _ => false
  end.

(** Header names are compared without regard to ASCII case. *)
Definition sameHeaderName (a b : QByteArray) : bool :=
  bytes_eqb (map toAsciiLower a) (map toAsciiLower b).

(** [QNetworkRequest::setRawHeader]: an empty name is refused; otherwise
    every header of that name is erased and, unless the value is a null
    byte array, the new pair is appended.  Setting a header twice thus
    overrides the earlier setting, and setting it to a null value removes
    it. *)
Definition setRawHeader (headerName : QByteArray)
           (headerValue : nullable QByteArray) (request : t) : t :=
  if isEmpty headerName then request
  else
    let erased :=
      filter (fun h => negb (sameHeaderName (fst h) headerName))
             (rawHeaders request) in
    {| url := url request
     ; rawHeaders :=
         match headerValue with
         | Some value => erased ++ [(headerName, value)]
         | None => erased
         end |}.

(** The headers of a given name held by a request. *)
Definition headersNamed (headerName : QByteArray) (request : t)
  : list RawHeaderPair :=
  filter (fun h => sameHeaderName (fst h) headerName) (rawHeaders request).

Definition hasRawHeader (headerName : QByteArray) (request : t) : bool :=
  negb (isEmpty (headersNamed headerName request)).

End QNetworkRequest.

(** [QNetworkReply]: what was submitted, and the state of the reply at the
    time its [finished] signal is delivered. *)
Module QNetworkReply.

Inductive NetworkError : Type :=
| NoError
| ConnectionRefusedError
| RemoteHostClosedError
| HostNotFoundError
| TimeoutError
| OperationCanceledError
| SslHandshakeFailedError
| TemporaryNetworkFailureError
| NetworkSessionFailedError
| BackgroundRequestNotAllowedError
| TooManyRedirectsError
| InsecureRedirectError
| UnknownNetworkError
| ProxyConnectionRefusedError
| ProxyConnectionClosedError
| ProxyNotFoundError
| ProxyTimeoutError
| ProxyAuthenticationRequiredError
| UnknownProxyError
| ContentAccessDenied
| ContentOperationNotPermittedError
| ContentNotFoundError
| AuthenticationRequiredError
| ContentReSendError
| ContentConflictError
| ContentGoneError
| UnknownContentError
| ProtocolUnknownError
| ProtocolInvalidOperationError
| ProtocolFailure
| InternalServerError
| OperationNotImplementedError
| ServiceUnavailableError
| UnknownServerError.

(** [e != QNetworkReply::NoError] *)
Definition isError (e : NetworkError) : bool :=
  match e with
  | NoError => false
  | _ => true
  end.

(** How the manager was asked to send the request. *)
Inductive Operation : Type :=
| HeadOperation
| GetOperation
| PostOperation
| PutOperation
| DeleteOperation
| CustomOperation (verb : QByteArray).

(** The receivers connected to the reply's [finished] signal. *)
Inductive Slot : Type :=
| HttpClient_onReplyFinished
| QEventLoop_quit.

(** What the transport has made of a request once it is finished. *)
Record Completion : Type := mkCompletion
  { c_error : NetworkError
  ; c_httpStatusCode : QVariant
  ; c_body : QByteArray }.

Record t : Type := mk
  { operation : Operation
  ; request : QNetworkRequest.t
  ; outgoingData : option QByteArray
  ; error : NetworkError
  ; httpStatusCodeAttribute : QVariant
  ; buffer : QByteArray
  ; finishedSlots : list Slot
  ; deleteLaterCalls : nat }.

(** [reply->readAll()]: the buffered bytes, which are consumed. *)
Definition readAll (reply : t) : QByteArray * t :=
  (buffer reply,
   {| operation := operation reply
    ; request := request reply
    ; outgoingData := outgoingData reply
    ; error := error reply
    ; httpStatusCodeAttribute := httpStatusCodeAttribute reply
    ; buffer := []
    ; finishedSlots := finishedSlots reply
    ; deleteLaterCalls := deleteLaterCalls reply |}).

(** [reply->attribute(QNetworkRequest::HttpStatusCodeAttribute)] *)
Definition attribute_HttpStatusCode (reply : t) : QVariant :=
  httpStatusCodeAttribute reply.

(** [reply->deleteLater()] *)
Definition deleteLater (reply : t) : t :=
  {| operation := operation reply
   ; request := request reply
   ; outgoingData := outgoingData reply
   ; error := error reply
   ; httpStatusCodeAttribute := httpStatusCodeAttribute reply
   ; buffer := buffer reply
   ; finishedSlots := finishedSlots reply
   ; deleteLaterCalls := S (deleteLaterCalls reply) |}.

(** [connect(reply, &QNetworkReply::finished, receiver, slot)] *)
Definition connect_finished (slot : Slot) (reply : t) : t :=
  {| operation := operation reply
   ; request := request reply
   ; outgoingData := outgoingData reply
   ; error := error reply
   ; httpStatusCodeAttribute := httpStatusCodeAttribute reply
   ; buffer := buffer reply
   ; finishedSlots := finishedSlots reply ++ [slot]
   ; deleteLaterCalls := deleteLaterCalls reply |}.

End QNetworkReply.

(** [QNetworkAccessManager]: the transport.  It is the external collaborator
    of the client; [Transport] is its answer to a submitted request. *)
Module QNetworkAccessManager.

Import QNetworkReply.

Definition Transport : Type :=
  Operation -> QNetworkRequest.t -> option QByteArray -> Completion.

(** The replies the manager has created, oldest first. *)
Definition t : Type := list QNetworkReply.t.

Definition createRequest (transport : Transport) (op : Operation)
           (request : QNetworkRequest.t) (data : option QByteArray)
  : QNetworkReply.t :=
  let done := transport op request data in
  {| operation := op
   ; request := request
   ; outgoingData := data
   ; error := c_error done
   ; httpStatusCodeAttribute := c_httpStatusCode done
   ; buffer := c_body done
   ; finishedSlots := []
   ; deleteLaterCalls := 0 |}.

Definition get tr request := createRequest tr GetOperation request None.
Definition post tr request data := createRequest tr PostOperation request (Some data).
Definition put tr request data := createRequest tr PutOperation request (Some data).
Definition sendCustomRequest tr request verb data :=
  createRequest tr (CustomOperation verb) request (Some data).
Definition deleteResource tr request := createRequest tr DeleteOperation request None.

End QNetworkAccessManager.

(** [QFile] and the process-wide default [QSslConfiguration]. *)
Module QSsl.

(** [QFile::open(QIODevice::ReadOnly)] on a path either succeeds, and
    [readAll] then gives the contents, or fails with an [errorString]. *)
Inductive OpenResult : Type :=
| Opened (contents : QByteArray)
| OpenFailed (errorString : QString).

Definition FileSystem : Type := QString -> OpenResult.

Inductive QSslCertificate : Type := Certificate (encoded : QByteArray).

Record QSslConfiguration : Type := mkConfiguration
  { caCertificates : list QSslCertificate }.

Definition setCaCertificates (certs : list QSslCertificate)
           (configuration : QSslConfiguration) : QSslConfiguration :=
  {| caCertificates := certs |}.

End QSsl.

(* ===================================================================== *)
(** ** [NetworkException] *)
(* ===================================================================== *)

Module NetworkException.

Record t : Type := mk
  { statusCode : Z        (* response status *)
  ; message : std_string  (* error message *) }.

(** [NetworkException(int statusCode, const QString& message)] *)
Definition new (statusCode : Z) (message : QString) : t :=
  {| statusCode := statusCode; message := toStdString message |}.

Definition getStatusCode (e : t) : Z := statusCode e.

(** [what()] hands out [message.c_str()]. *)
Definition what (e : t) : list byte := c_str (message e).

End NetworkException.

(** The outcome of a call that either returns or throws a
    [NetworkException]. *)
Inductive Result (A : Type) : Type :=
| Return (a : A)
| Throw (e : NetworkException.t).

Arguments Return {A} a.
Arguments Throw {A} e.

(* ===================================================================== *)
(** ** [HttpClient] *)
(* ===================================================================== *)

Module HttpClient.

Import QNetworkReply.

(** [QMap<QString, QString>]: the entries in the order in which a
    [QMapIterator] visits them (ascending keys).  A value may be the null
    string. *)
Definition QMap : Type := list (QString * nullable QString).

(** The state shared by every client of the process: the static member
    [HttpClient::token] and the default SSL configuration. *)
Record Process : Type := mkProcess
  { token : QString
  ; defaultConfiguration : QSsl.QSslConfiguration }.

(** [QString HttpClient::token = QString();] *)
Definition initial (configuration : QSsl.QSslConfiguration) : Process :=
  {| token := []; defaultConfiguration := configuration |}.

Record t : Type := mk
  { manager : QNetworkAccessManager.t
  ; headers : QMap }.

(** [HttpClient(QObject* parent)] *)
Definition new : t := {| manager := []; headers := [] |}.

(** [HttpClient(QObject* parent, const QMap<QString, QString>& headers)] *)
Definition new_with_headers (headers : QMap) : t :=
  {| manager := []; headers := headers |}.

(** The signals of the client. *)
Inductive Signal : Type :=
| success (data : QByteArray)
| error (errorString : QString).

Definition setRootCA (fs : QSsl.FileSystem) (certPath : QString) (p : Process)
  : Result Process :=
  match fs certPath with
  | QSsl.OpenFailed errorString =>
      Throw (NetworkException.new 0 errorString)
  | QSsl.Opened contents =>
      let bytes := contents in
      let certificate := QSsl.Certificate bytes in
      let configuration := defaultConfiguration p in
      let certs := QSsl.caCertificates configuration in
      let certs := certs ++ [certificate] in
      let configuration := QSsl.setCaCertificates certs configuration in
      Return {| token := token p; defaultConfiguration := configuration |}
  end.

Definition setBearerToken (jwtToken : QString) (p : Process) : Process :=
  {| token := jwtToken; defaultConfiguration := defaultConfiguration p |}.

(** The loop of [setHeaders] over the instance headers. *)
Fixpoint setHeaders_loop (it : QMap) (request : QNetworkRequest.t)
  : QNetworkRequest.t :=
  match it with
  | [] => request
  | (key, value) :: rest =>
      setHeaders_loop rest
        (QNetworkRequest.setRawHeader (toLocal8Bit key)
                                      (toLocal8Bit_nullable value) request)
  end.

Definition Authorization : QByteArray := bytes "Authorization".

Definition setHeaders (token : QString) (headers : QMap)
           (request : QNetworkRequest.t) : QNetworkRequest.t :=
  (* Set all request headers onto the request *)
  let request := setHeaders_loop headers request in
  (* Add authorization header if token is set *)
  if negb (isEmpty token)
  then QNetworkRequest.setRawHeader
         Authorization (Some (toLocal8Bit (qstr "Bearer " ++ token))) request
  else request.

Definition onReplyFinished (sender : QNetworkReply.t)
  : list Signal * QNetworkReply.t :=
  let reply := sender in
  let requestFailed := isError (QNetworkReply.error reply) in
  let '(responseData, reply) := readAll reply in
  let statusCode := toInt (attribute_HttpStatusCode reply) in
  let reply := deleteLater reply in
  if requestFailed || (statusCode >? 300)%Z
  then ([error (QString_of_QByteArray responseData)], reply)
  else ([success responseData], reply).

(** [waitForResponse] runs a local event loop until the reply is finished;
    the reply it then inspects is the finished one.  The loop may deliver
    the completions of other replies of the client meanwhile; those are
    completions of their own ([finished] below) and not part of this
    function. *)
Definition waitForResponse (reply : QNetworkReply.t)
  : Result QByteArray * QNetworkReply.t :=
  let reply := connect_finished QEventLoop_quit reply in
  let requestFailed := isError (QNetworkReply.error reply) in
  let '(responseData, reply) := readAll reply in
  let statusCode := toInt (attribute_HttpStatusCode reply) in
  (* Free reply memory *)
  let reply := deleteLater reply in
  if requestFailed || (statusCode >? 300)%Z
  then (Throw (NetworkException.new statusCode
                 (QString_of_QByteArray responseData)), reply)
  else (Return responseData, reply).

(** Delivery of a reply's [finished] signal to the slots connected to it,
    in connection order. *)
Fixpoint emit_finished (slots : list Slot) (reply : QNetworkReply.t)
  : list Signal * QNetworkReply.t :=
  match slots with
  | [] => ([], reply)
  | HttpClient_onReplyFinished :: rest =>
      let '(emitted, reply) := onReplyFinished reply in
      let '(later, reply) := emit_finished rest reply in
      (emitted ++ later, reply)
  | QEventLoop_quit :: rest => emit_finished rest reply
  end.

Definition finished (reply : QNetworkReply.t) : list Signal * QNetworkReply.t :=
  emit_finished (finishedSlots reply) reply.

Section EntryPoints.

Variable transport : QNetworkAccessManager.Transport.

(** The manager keeps the reply it has created. *)
Definition submitted (c : t) (reply : QNetworkReply.t) : t :=
  {| manager := manager c ++ [reply]; headers := headers c |}.

Definition get (p : Process) (c : t) (url : QString) : t :=
  let qUrl := QNetworkRequest.Url url in
  let request := QNetworkRequest.new qUrl in
  let request := setHeaders (token p) (headers c) request in
  let reply := QNetworkAccessManager.get transport request in
  let reply := connect_finished HttpClient_onReplyFinished reply in
  submitted c reply.

Definition post (p : Process) (c : t) (url : QString) (data : QByteArray) : t :=
  let qUrl := QNetworkRequest.Url url in
  let request := QNetworkRequest.new qUrl in
  let request := setHeaders (token p) (headers c) request in
  let reply := QNetworkAccessManager.post transport request data in
  let reply := connect_finished HttpClient_onReplyFinished reply in
  submitted c reply.

Definition put (p : Process) (c : t) (url : QString) (data : QByteArray) : t :=
  let qUrl := QNetworkRequest.Url url in
  let request := QNetworkRequest.new qUrl in
  let request := setHeaders (token p) (headers c) request in
  let reply := QNetworkAccessManager.put transport request data in
  let reply := connect_finished HttpClient_onReplyFinished reply in
  submitted c reply.

Definition patch (p : Process) (c : t) (url : QString) (data : QByteArray) : t :=
  let qUrl := QNetworkRequest.Url url in
  let request := QNetworkRequest.new qUrl in
  let request := setHeaders (token p) (headers c) request in
  let reply :=
    QNetworkAccessManager.sendCustomRequest transport request (bytes "PATCH") data in
  let reply := connect_finished HttpClient_onReplyFinished reply in
  submitted c reply.

Definition del (p : Process) (c : t) (url : QString) : t :=
  let qUrl := QNetworkRequest.Url url in
  let request := QNetworkRequest.new qUrl in
  let request := setHeaders (token p) (headers c) request in
  let reply := QNetworkAccessManager.deleteResource transport request in
  let reply := connect_finished HttpClient_onReplyFinished reply in
  submitted c reply.

Definition get_sync (p : Process) (c : t) (url : QString)
  : Result QByteArray * t :=
  let qUrl := QNetworkRequest.Url url in
  let request := QNetworkRequest.new qUrl in
  let request := setHeaders (token p) (headers c) request in
  let reply := QNetworkAccessManager.get transport request in
  let '(result, reply) := waitForResponse reply in
  (result, submitted c reply).

Definition post_sync (p : Process) (c : t) (url : QString) (data : QByteArray)
  : Result QByteArray * t :=
  let qUrl := QNetworkRequest.Url url in
  let request := QNetworkRequest.new qUrl in
  let request := setHeaders (token p) (headers c) request in
  let reply := QNetworkAccessManager.post transport request data in
  let '(result, reply) := waitForResponse reply in
  (result, submitted c reply).

Definition put_sync (p : Process) (c : t) (url : QString) (data : QByteArray)
  : Result QByteArray * t :=
  let qUrl := QNetworkRequest.Url url in
  let request := QNetworkRequest.new qUrl in
  let request := setHeaders (token p) (headers c) request in
  let reply := QNetworkAccessManager.put transport request data in
  let '(result, reply) := waitForResponse reply in
  (result, submitted c reply).

Definition patch_sync (p : Process) (c : t) (url : QString) (data : QByteArray)
  : Result QByteArray * t :=
  let qUrl := QNetworkRequest.Url url in
  let request := QNetworkRequest.new qUrl in
  let request := setHeaders (token p) (headers c) request in
  let reply :=
    QNetworkAccessManager.sendCustomRequest transport request (bytes "PATCH") data in
  let '(result, reply) := waitForResponse reply in
  (result, submitted c reply).

Definition del_sync (p : Process) (c : t) (url : QString)
  : Result QByteArray * t :=
  let qUrl := QNetworkRequest.Url url in
  let request := QNetworkRequest.new qUrl in
  let request := setHeaders (token p) (headers c) request in
  let reply := QNetworkAccessManager.deleteResource transport request in
  let '(result, reply) := waitForResponse reply in
  (result, submitted c reply).

(** *** The entry points by HTTP method

    The header declares an asynchronous and a synchronous member function
    for each of the six methods; [asyncEntryPoint] and [syncEntryPoint] give,
    for each method, the member function that [httpclient.cpp] defines. *)

Inductive Method : Type := GET | HEAD | POST | PUT | PATCH | DELETE.

Inductive AsyncEntry : Type :=
| AsyncUrl (f : Process -> t -> QString -> t)
| AsyncUrlData (f : Process -> t -> QString -> QByteArray -> t).

Inductive SyncEntry : Type :=
| SyncUrl (f : Process -> t -> QString -> Result QByteArray * t)
| SyncUrlData (f : Process -> t -> QString -> QByteArray -> Result QByteArray * t).

Definition asyncEntryPoint (m : Method) : option AsyncEntry :=
  match m with
  | GET => Some (AsyncUrl get)
  | HEAD => None
  | POST => Some (AsyncUrlData post)
  | PUT => Some (AsyncUrlData put)
  | PATCH => Some (AsyncUrlData patch)
  | DELETE => Some (AsyncUrl del)
  end.

Definition syncEntryPoint (m : Method) : option SyncEntry :=
  match m with
  | GET => Some (SyncUrl get_sync)
  | HEAD => None
  | POST => Some (SyncUrlData post_sync)
  | PUT => Some (SyncUrlData put_sync)
  | PATCH => Some (SyncUrlData patch_sync)
  | DELETE => Some (SyncUrl del_sync)
  end.

End EntryPoints.

End HttpClient.

Import HttpClient.

(* ===================================================================== *)
(** ** Vocabulary of the specification *)
(* ===================================================================== *)

(** The two outcomes of a completed request. *)
Inductive Classification : Type := Success | Failure.

(** A synchronous call is a Success when it returns and a Failure when it
    throws. *)
Definition syncClassification (r : Result QByteArray) : Classification :=
  match r with
  | Return _ => Success
  | Throw _ => Failure
  end.

(** An asynchronous completion is a Success when the only signal emitted is
    [success] and a Failure when the only signal emitted is [error]. *)
Definition asyncClassification (emitted : list Signal) : option Classification :=
  match emitted with
  | [success _] => Some Success
  | [error _] => Some Failure
  | _ => None
  end.

Definition isSuccessSignal (s : Signal) : bool :=
  match s with
  | success _ => true
  | error _ => false
  end.

Definition isErrorSignal (s : Signal) : bool :=
  match s with
  | success _ => false
  | error _ => true
  end.

(** How many times each of the two signals occurs in a trace. *)
Definition countSuccess (emitted : list Signal) : nat :=
  List.length (filter isSuccessSignal emitted).

Definition countError (emitted : list Signal) : nat :=
  List.length (filter isErrorSignal emitted).

(** The test both completion paths apply to a finished reply. *)
Definition failed (reply : QNetworkReply.t) : bool :=
  QNetworkReply.isError (QNetworkReply.error reply)
  || (toInt (QNetworkReply.httpStatusCodeAttribute reply) >? 300)%Z.

(** A reply that differs from [reply] in its status attribute only. *)
Definition withStatus (v : QVariant) (reply : QNetworkReply.t) : QNetworkReply.t :=
  {| QNetworkReply.operation := QNetworkReply.operation reply
   ; QNetworkReply.request := QNetworkReply.request reply
   ; QNetworkReply.outgoingData := QNetworkReply.outgoingData reply
   ; QNetworkReply.error := QNetworkReply.error reply
   ; QNetworkReply.httpStatusCodeAttribute := v
   ; QNetworkReply.buffer := QNetworkReply.buffer reply
   ; QNetworkReply.finishedSlots := QNetworkReply.finishedSlots reply
   ; QNetworkReply.deleteLaterCalls := QNetworkReply.deleteLaterCalls reply |}.

(** Text made of ASCII characters other than NUL. *)
Definition asciiText (bs : QByteArray) : bool :=
  forallb (fun b => (0 <? b2n b)%N && (b2n b <? 0x80)%N) bs.

(** A finished reply, for the examples. *)
Definition finishedReply (e : QNetworkReply.NetworkError) (status : QVariant)
           (body : QByteArray) : QNetworkReply.t :=
  {| QNetworkReply.operation := QNetworkReply.GetOperation
   ; QNetworkReply.request :=
       QNetworkRequest.new (QNetworkRequest.Url (qstr "http://localhost/"))
   ; QNetworkReply.outgoingData := None
   ; QNetworkReply.error := e
   ; QNetworkReply.httpStatusCodeAttribute := status
   ; QNetworkReply.buffer := body
   ; QNetworkReply.finishedSlots := []
   ; QNetworkReply.deleteLaterCalls := 0 |}.

(** Calling an entry point with a URL and, where it takes one, a body. *)
Definition callAsync (e : AsyncEntry) (p : Process) (c : HttpClient.t)
           (url : QString) (data : QByteArray) : HttpClient.t :=
  match e with
  | AsyncUrl f => f p c url
  | AsyncUrlData f => f p c url data
  end.

Definition callSync (e : SyncEntry) (p : Process) (c : HttpClient.t)
           (url : QString) (data : QByteArray) : Result QByteArray * HttpClient.t :=
  match e with
  | SyncUrl f => f p c url
  | SyncUrlData f => f p c url data
  end.

(** The methods whose entry points take a body. *)
Definition takesBody (m : Method) : bool :=
  match m with
  | POST | PUT | PATCH => true
  | GET | HEAD | DELETE => false
  end.

(** How a request of each method reaches the manager. *)
Definition operationOf (m : Method) : QNetworkReply.Operation :=
  match m with
  | GET => QNetworkReply.GetOperation
  | HEAD => QNetworkReply.HeadOperation
  | POST => QNetworkReply.PostOperation
  | PUT => QNetworkReply.PutOperation
  | PATCH => QNetworkReply.CustomOperation (bytes "PATCH")
  | DELETE => QNetworkReply.DeleteOperation
  end.

(** A transport for the examples: every request is answered 200 with the
    body [{"ok":true}]. *)
Definition okTransport : QNetworkAccessManager.Transport :=
  fun _ _ _ =>
    QNetworkReply.mkCompletion QNetworkReply.NoError (Int 200)
      [x7b; x22; x6f; x6b; x22; x3a; x74; x72; x75; x65; x7d].

(** Finished replies used in the examples. *)
Definition reply_300 : QNetworkReply.t :=
  finishedReply QNetworkReply.NoError (Int 300) (bytes "ok").

Definition reply_host_not_found : QNetworkReply.t :=
  finishedReply QNetworkReply.HostNotFoundError Invalid [].

Definition reply_no_status : QNetworkReply.t :=
  finishedReply QNetworkReply.NoError Invalid (bytes "body").

Definition reply_404 : QNetworkReply.t :=
  finishedReply QNetworkReply.ContentNotFoundError (Int 404) (bytes "not found").

(** An answer 500 whose body is the single byte 0xFF, which is not UTF-8. *)
Definition reply_500_not_utf8 : QNetworkReply.t :=
  finishedReply QNetworkReply.InternalServerError (Int 500) [xff].

(** Instance headers used in the examples: the client was given an
    [Authorization] header of its own. *)
Definition basicAuthHeaders : QMap :=
  [ (qstr "Authorization", Some (qstr "Basic dXNlcjpwdw=="))
  ; (qstr "X-Api-Version", Some (qstr "2")) ].

Definition localhost : QNetworkRequest.QUrl :=
  QNetworkRequest.Url (qstr "http://localhost/").

(** File systems for the examples: one in which no certificate file can be
    opened, and one in which every path holds the same certificate. *)
Definition noSuchFile : QSsl.FileSystem :=
  fun _ => QSsl.OpenFailed (qstr "No such file or directory").

Definition pem : QByteArray := bytes "-----BEGIN CERTIFICATE-----".

Definition readableFile : QSsl.FileSystem := fun _ => QSsl.Opened pem.

Definition freshProcess : Process := initial (QSsl.mkConfiguration []).

(** The reply an entry point for method [m] hands to the manager, before
    anything is connected to it. *)
Definition submittedReply (transport : QNetworkAccessManager.Transport)
           (m : Method) (p : Process) (c : HttpClient.t) (url : QString)
           (data : QByteArray) : QNetworkReply.t :=
  QNetworkAccessManager.createRequest
    transport (operationOf m)
    (setHeaders (token p) (headers c)
                (QNetworkRequest.new (QNetworkRequest.Url url)))
    (if takesBody m then Some data else None).

(** What the loop of [setHeaders] appends for one instance header: the
    name and value as bytes, or nothing when the value is the null
    string. *)
Definition headerSent (key : QString) (value : nullable QString)
  : list QNetworkRequest.RawHeaderPair :=
  match value with
  | Some units => [(toLocal8Bit key, toLocal8Bit units)]
  | None => []
  end.

(** The instance headers whose value is not null, as bytes, in the order
    of the map. *)
Fixpoint sentHeaders (headers : QMap) : list QNetworkRequest.RawHeaderPair :=
  match headers with
  | [] => []
  | (key, value) :: rest => headerSent key value ++ sentHeaders rest
  end.

(** The names of the instance headers, as bytes. *)
Definition instanceNames (headers : QMap) : list QByteArray :=
  map (fun kv => toLocal8Bit (fst kv)) headers.

(** The names of the headers a request holds. *)
Definition headerNames (request : QNetworkRequest.t) : list QByteArray :=
  map fst (QNetworkRequest.rawHeaders request).

(** No two names of the list are the same, compared as [setRawHeader]
    compares names. *)
Fixpoint distinctNames (names : list QByteArray) : bool :=
  match names with
  | [] => true
  | n :: r =>
      negb (existsb (fun n' => QNetworkRequest.sameHeaderName n' n) r)
      && distinctNames r
  end.

(** No name of the list is empty. *)
Definition nonEmptyNames (names : list QByteArray) : bool :=
  forallb (fun n => negb (isEmpty n)) names.

(** Instance headers with two names that differ in case only, and one
    without a name. *)
Definition clashingHeaders : QMap :=
  [ (qstr "", Some (qstr "x"))
  ; (qstr "Accept", Some (qstr "text/html"))
  ; (qstr "accept", Some (qstr "application/json")) ].

Definition plainHeaders : QMap :=
  [ (qstr "Accept", Some (qstr "application/json"))
  ; (qstr "X-Api-Version", Some (qstr "2")) ].

(** Instance headers with a null value: the last header named accept is
    [QString()]. *)
Definition nullValueHeaders : QMap :=
  [ (qstr "Accept", Some (qstr "text/html"))
  ; (qstr "X-Api-Version", Some (qstr "2"))
  ; (qstr "accept", None) ].

(** Instance headers with an [Authorization] header whose value is null. *)
Definition nullAuthHeaders : QMap :=
  [ (qstr "Authorization", None)
  ; (qstr "X-Api-Version", Some (qstr "2")) ].


(** A transport for the examples that answers every request 404. *)
Definition notFoundTransport : QNetworkAccessManager.Transport :=
  fun _ _ _ =>
    QNetworkReply.mkCompletion QNetworkReply.ContentNotFoundError (Int 404)
      (bytes "not found").

(** A file system for the examples with two certificate files. *)
Definition twoCertificates : QSsl.FileSystem :=
  fun path =>
    match path with
    | [] => QSsl.OpenFailed (qstr "No file name specified")
    | 97%N :: _ => QSsl.Opened (bytes "first")
    | _ => QSsl.Opened (bytes "second")
    end.

(* ===================================================================== *)
(** ** The completion paths *)
(* ===================================================================== *)

Lemma waitForResponse_eq (reply : QNetworkReply.t) :
  fst (waitForResponse reply) =
  if failed reply
  then Throw (NetworkException.new
                (toInt (QNetworkReply.httpStatusCodeAttribute reply))
                (QString_of_QByteArray (QNetworkReply.buffer reply)))
  else Return (QNetworkReply.buffer reply).
Proof.
  unfold waitForResponse, failed; simpl.
  destruct (_ || _); reflexivity.
Qed.

Lemma onReplyFinished_eq (reply : QNetworkReply.t) :
  fst (onReplyFinished reply) =
  if failed reply
  then [error (QString_of_QByteArray (QNetworkReply.buffer reply))]
  else [success (QNetworkReply.buffer reply)].
Proof.
  unfold onReplyFinished, failed; simpl.
  destruct (_ || _); reflexivity.
Qed.

Lemma failed_no_error (reply : QNetworkReply.t) :
  QNetworkReply.error reply = QNetworkReply.NoError ->
  failed reply = (toInt (QNetworkReply.httpStatusCodeAttribute reply) >? 300)%Z.
Proof. intros H; unfold failed; rewrite H; reflexivity. Qed.


(** C1. When the transport reports no error and the status is [s], the
    synchronous call returns exactly when [s <= 300] and throws exactly when
    [s > 300]; the completion handler emits [success] exactly when
    [s <= 300] and [error] exactly when [s > 300]. *)
Theorem classification_by_status (reply : QNetworkReply.t) (s : Z) :
  QNetworkReply.error reply = QNetworkReply.NoError ->
  toInt (QNetworkReply.httpStatusCodeAttribute reply) = s ->
  (syncClassification (fst (waitForResponse reply)) = Success <-> (s <= 300)%Z)
  /\ (syncClassification (fst (waitForResponse reply)) = Failure <-> (s > 300)%Z)
  /\ (asyncClassification (fst (onReplyFinished reply)) = Some Success
      <-> (s <= 300)%Z)
  /\ (asyncClassification (fst (onReplyFinished reply)) = Some Failure
      <-> (s > 300)%Z).
Proof.
  intros Herr Hs.
  rewrite waitForResponse_eq, onReplyFinished_eq, (failed_no_error _ Herr), Hs.
  rewrite Z.gtb_ltb.
  destruct (Z.ltb_spec 300 s); simpl;
    repeat split; intros; try lia; try discriminate; reflexivity.
Qed.

Lemma classification_by_status_witness :
  QNetworkReply.error reply_300 = QNetworkReply.NoError
  /\ toInt (QNetworkReply.httpStatusCodeAttribute reply_300) = 300%Z
  /\ (syncClassification (fst (waitForResponse reply_300)) = Success
      <-> (300 <= 300)%Z)
  /\ (syncClassification (fst (waitForResponse reply_300)) = Failure
      <-> (300 > 300)%Z)
  /\ (asyncClassification (fst (onReplyFinished reply_300)) = Some Success
      <-> (300 <= 300)%Z)
  /\ (asyncClassification (fst (onReplyFinished reply_300)) = Some Failure
      <-> (300 > 300)%Z).
Proof.
  split; [reflexivity|]; split; [reflexivity|].
  apply (classification_by_status reply_300 300%Z); reflexivity.
Defined.

(** The boundary: status 300 is a Success and status 301 a Failure, on both
    paths. *)
Example status_300_301 :
  fst (waitForResponse (finishedReply QNetworkReply.NoError (Int 300) (bytes "ok")))
  = Return (bytes "ok")
  /\ fst (onReplyFinished (finishedReply QNetworkReply.NoError (Int 300) (bytes "ok")))
     = [success (bytes "ok")]
  /\ fst (waitForResponse (finishedReply QNetworkReply.NoError (Int 301) (bytes "moved")))
     = Throw (NetworkException.mk 301 (bytes "moved"))
  /\ fst (onReplyFinished (finishedReply QNetworkReply.NoError (Int 301) (bytes "moved")))
     = [error (qstr "moved")].
Proof. repeat split; reflexivity. Qed.




(** A transport error together with a status: Qt reports
    [ContentNotFoundError] for a 404 answer, and the exception carries 404. *)
Example transport_error_with_status :
  fst (waitForResponse reply_404)
  = Throw (NetworkException.mk 404 (bytes "not found")).
Proof. reflexivity. Qed.

Lemma finished_single (reply : QNetworkReply.t) :
  QNetworkReply.finishedSlots reply = [QNetworkReply.HttpClient_onReplyFinished] ->
  fst (finished reply) = fst (onReplyFinished reply).
Proof.
  intros H; unfold finished; rewrite H; simpl.
  destruct (onReplyFinished reply) as [emitted reply']; simpl.
  apply app_nil_r.
Qed.

Lemma onReplyFinished_one (reply : QNetworkReply.t) :
  let emitted := fst (onReplyFinished reply) in
  List.length emitted = 1
  /\ countSuccess emitted + countError emitted = 1
  /\ (countSuccess emitted = 1 <-> failed reply = false)
  /\ (countError emitted = 1 <-> failed reply = true).
Proof.
  cbv zeta; rewrite onReplyFinished_eq.
  destruct (failed reply); cbn; repeat split; intros; congruence.
Qed.

(** C4. The completion handler emits exactly one signal, which is either
    [success] or [error]; and the reply submitted by each asynchronous entry
    point has the handler as the only receiver of its [finished] signal, so
    that its completion emits exactly one of the two signals, once. *)
Theorem exactly_one_signal :
  (forall reply : QNetworkReply.t,
      let emitted := fst (onReplyFinished reply) in
      List.length emitted = 1
      /\ countSuccess emitted + countError emitted = 1
      /\ (countSuccess emitted = 1 <-> failed reply = false)
      /\ (countError emitted = 1 <-> failed reply = true))
  /\ (forall transport m entry p c url data,
         asyncEntryPoint transport m = Some entry ->
         exists reply,
           manager (callAsync entry p c url data) = manager c ++ [reply]
           /\ List.length (fst (finished reply)) = 1
           /\ countSuccess (fst (finished reply))
              + countError (fst (finished reply)) = 1).
Proof.
  split; [exact onReplyFinished_one|].
  intros transport m entry p c url data Hentry.
  destruct m; simpl in Hentry; inversion Hentry; subst entry; clear Hentry;
    (eexists; split; [reflexivity|]);
    (rewrite finished_single by reflexivity);
    (split; apply onReplyFinished_one).
Qed.

Lemma exactly_one_signal_witness :
  asyncEntryPoint okTransport GET = Some (AsyncUrl (get okTransport))
  /\ exists reply,
      manager (callAsync (AsyncUrl (get okTransport)) freshProcess HttpClient.new
                 (qstr "http://localhost/") [])
      = manager HttpClient.new ++ [reply]
      /\ List.length (fst (finished reply)) = 1
      /\ countSuccess (fst (finished reply)) + countError (fst (finished reply)) = 1.
Proof.
  split; [reflexivity|].
  apply (proj2 exactly_one_signal okTransport GET); reflexivity.
Defined.

(** C10. Both paths classify by [failed] alone, that is by the transport
    error flag and the comparison of the status with 300; hence a reply
    without error whose status attribute is absent or 0 is a Success: the
    body is returned, and emitted with [success]. *)
Theorem absent_status_is_success (reply : QNetworkReply.t) :
  (syncClassification (fst (waitForResponse reply)) = Failure
   <-> failed reply = true)
  /\ (asyncClassification (fst (onReplyFinished reply)) = Some Failure
      <-> failed reply = true)
  /\ (QNetworkReply.error reply = QNetworkReply.NoError ->
      QNetworkReply.httpStatusCodeAttribute reply = Invalid
      \/ QNetworkReply.httpStatusCodeAttribute reply = Int 0 ->
      fst (waitForResponse reply) = Return (QNetworkReply.buffer reply)
      /\ fst (onReplyFinished reply) = [success (QNetworkReply.buffer reply)]).
Proof.
  rewrite waitForResponse_eq, onReplyFinished_eq.
  split; [|split].
  - destruct (failed reply); simpl; split; congruence.
  - destruct (failed reply); simpl; split; congruence.
  - intros Herr Hst.
    rewrite (failed_no_error _ Herr).
    destruct Hst as [-> | ->]; split; reflexivity.
Qed.

Lemma absent_status_is_success_witness :
  QNetworkReply.error reply_no_status = QNetworkReply.NoError
  /\ QNetworkReply.httpStatusCodeAttribute reply_no_status = Invalid
  /\ fst (waitForResponse reply_no_status) = Return (bytes "body")
  /\ fst (onReplyFinished reply_no_status) = [success (bytes "body")].
Proof.
  split; [reflexivity|]; split; [reflexivity|].
  apply (proj2 (proj2 (absent_status_is_success reply_no_status)));
    [reflexivity | left; reflexivity].
Defined.

(* ===================================================================== *)
(** ** Text conversions *)
(* ===================================================================== *)

Lemma n2b_b2n (b : byte) : n2b (b2n b) = b.
Proof. destruct b; reflexivity. Qed.

Lemma decodeUtf8_cons_ascii (b : byte) (r : QByteArray) :
  (b2n b <? 0x80)%N = true -> decodeUtf8 (b :: r) = b2n b :: decodeUtf8 r.
Proof. intros H; cbn [decodeUtf8]; rewrite H; reflexivity. Qed.

Lemma toUtf8_cons_ascii (u : QChar) (r : QString) :
  (u <? 0x80)%N = true -> toUtf8 (u :: r) = n2b u :: toUtf8 r.
Proof.
  intros H; cbn [toUtf8].
  apply N.ltb_lt in H.
  assert (Hh : isHighSurrogate u = false).
  { unfold isHighSurrogate. replace (0xD800 <=? u)%N with false; [reflexivity|].
    symmetry; apply N.leb_gt; lia. }
  assert (Hl : isLowSurrogate u = false).
  { unfold isLowSurrogate. replace (0xDC00 <=? u)%N with false; [reflexivity|].
    symmetry; apply N.leb_gt; lia. }
  rewrite Hh, Hl; unfold encodeCodePoint.
  apply N.ltb_lt in H; rewrite H; reflexivity.
Qed.

Lemma asciiText_cons (b : byte) (r : QByteArray) :
  asciiText (b :: r) = true ->
  (0 <? b2n b)%N = true /\ (b2n b <? 0x80)%N = true /\ asciiText r = true.
Proof.
  unfold asciiText; cbn [forallb]; intros H.
  apply andb_true_iff in H; destruct H as [H Hr].
  apply andb_true_iff in H; destruct H as [H0 H1]; auto.
Qed.

Lemma decodeUtf8_ascii (bs : QByteArray) :
  asciiText bs = true -> decodeUtf8 bs = map b2n bs.
Proof.
  induction bs as [|b r IH]; intros H; [reflexivity|].
  apply asciiText_cons in H; destruct H as [_ [Hb Hr]].
  rewrite (decodeUtf8_cons_ascii _ _ Hb), (IH Hr); reflexivity.
Qed.

Lemma skipBom_ascii (bs : QByteArray) :
  asciiText bs = true -> skipBom bs = bs.
Proof.
  destruct bs as [|b r]; [reflexivity|]; intros H.
  apply asciiText_cons in H; destruct H as [_ [Hb _]].
  destruct b; try reflexivity; discriminate Hb.
Qed.

Lemma fromUtf8_ascii (bs : QByteArray) :
  asciiText bs = true -> fromUtf8 bs = map b2n bs.
Proof.
  intros H; unfold fromUtf8; rewrite (skipBom_ascii _ H).
  apply decodeUtf8_ascii; exact H.
Qed.

Lemma toUtf8_ascii (bs : QByteArray) :
  asciiText bs = true -> toUtf8 (map b2n bs) = bs.
Proof.
  induction bs as [|b r IH]; intros H; [reflexivity|].
  apply asciiText_cons in H; destruct H as [_ [Hb Hr]].
  cbn [map]; rewrite (toUtf8_cons_ascii _ _ Hb), n2b_b2n, (IH Hr); reflexivity.
Qed.

Lemma c_str_ascii (bs : QByteArray) :
  asciiText bs = true -> c_str bs = bs.
Proof.
  induction bs as [|b r IH]; intros H; [reflexivity|].
  apply asciiText_cons in H; destruct H as [H0 [_ Hr]].
  cbn [c_str]; rewrite (IH Hr).
  destruct b; try reflexivity; discriminate H0.
Qed.

(** An ASCII body survives the conversion to a [QString] and back. *)
Lemma text_round_trip (bs : QByteArray) :
  asciiText bs = true ->
  toStdString (QString_of_QByteArray bs) = bs
  /\ c_str (toStdString (QString_of_QByteArray bs)) = bs.
Proof.
  intros H; unfold toStdString, QString_of_QByteArray.
  rewrite (fromUtf8_ascii _ H), (toUtf8_ascii _ H), (c_str_ascii _ H); auto.
Qed.

Example fromUtf8_euro : fromUtf8 [xe2; x82; xac] = [0x20AC%N].
Proof. reflexivity. Qed.

Example fromUtf8_truncated : fromUtf8 [xe2; x82] = [0xFFFD; 0xFFFD]%N.
Proof. reflexivity. Qed.

Example utf8_pair : toUtf8 (fromUtf8 [xf0; x9f; x98; x80]) = [xf0; x9f; x98; x80].
Proof. reflexivity. Qed.

Example c_str_stops_at_nul : c_str [x61; x00; x62] = [x61].
Proof. reflexivity. Qed.

(* ===================================================================== *)
(** ** What the two paths deliver *)
(* ===================================================================== *)

(** C3, as stated, fails: for an answer 500 whose body is the byte 0xFF the
    exception carries status 500 but its message is the three bytes
    EF BF BD, not the response body. *)
Lemma sync_error_body_counterexample :
  QNetworkReply.buffer reply_500_not_utf8 = [xff]
  /\ fst (waitForResponse reply_500_not_utf8)
     = Throw (NetworkException.mk 500 [xef; xbf; xbd])
  /\ NetworkException.what (NetworkException.mk 500 [xef; xbf; xbd])
     = [xef; xbf; xbd]
  /\ ~ (forall reply e,
           fst (waitForResponse reply) = Throw e ->
           NetworkException.what e = QNetworkReply.buffer reply).
Proof.
  repeat split.
  intros H; specialize (H reply_500_not_utf8 _ eq_refl); discriminate H.
Qed.

(** A body with an embedded NUL: [what()] shows the bytes before it only. *)
Example sync_error_body_nul :
  fst (waitForResponse
         (finishedReply QNetworkReply.InternalServerError (Int 500)
                        [x61; x00; x62]))
  = Throw (NetworkException.mk 500 [x61; x00; x62])
  /\ NetworkException.what (NetworkException.mk 500 [x61; x00; x62]) = [x61].
Proof. split; reflexivity. Qed.

(** C3, amended.  A synchronous wait ends in exactly one of two ways.  When
    the reply has not failed it returns the response body.  When it has
    failed it throws an exception whose status is the status read from the
    reply and whose message is the response body converted to a [QString]
    and back to UTF-8, handed out as a C string; for a body of ASCII text
    that message is the body itself. *)
Theorem sync_call_outcome (reply : QNetworkReply.t) :
  (failed reply = false ->
   fst (waitForResponse reply) = Return (QNetworkReply.buffer reply))
  /\ (failed reply = true ->
      exists e,
        fst (waitForResponse reply) = Throw e
        /\ NetworkException.getStatusCode e
           = toInt (QNetworkReply.httpStatusCodeAttribute reply)
        /\ NetworkException.message e
           = toStdString (fromUtf8 (QNetworkReply.buffer reply))
        /\ NetworkException.what e = c_str (NetworkException.message e)
        /\ (asciiText (QNetworkReply.buffer reply) = true ->
            NetworkException.what e = QNetworkReply.buffer reply)).
Proof.
  rewrite waitForResponse_eq.
  split; intros Hf; rewrite Hf; [reflexivity|].
  eexists; split; [reflexivity|].
  repeat split.
  intros Hascii; unfold NetworkException.what; simpl.
  apply (text_round_trip _ Hascii).
Qed.

Lemma sync_call_outcome_witness :
  failed reply_404 = true
  /\ asciiText (QNetworkReply.buffer reply_404) = true
  /\ exists e,
      fst (waitForResponse reply_404) = Throw e
      /\ NetworkException.getStatusCode e = 404%Z
      /\ NetworkException.what e = bytes "not found".
Proof.
  split; [reflexivity|]; split; [reflexivity|].
  destruct (proj2 (sync_call_outcome reply_404) eq_refl)
    as [e [He [Hs [_ [_ Hw]]]]].
  exists e; split; [exact He|]; split; [exact Hs|].
  apply Hw; reflexivity.
Defined.

(** C7, as stated, fails: for an answer 500 whose body is the byte 0xFF the
    [error] signal carries the one-character string U+FFFD, which is neither
    the body byte for byte nor a string whose UTF-8 form is the body. *)
Lemma async_error_payload_counterexample :
  QNetworkReply.buffer reply_500_not_utf8 = [xff]
  /\ fst (onReplyFinished reply_500_not_utf8) = [error [0xFFFD%N]]
  /\ [0xFFFD%N] <> map b2n (QNetworkReply.buffer reply_500_not_utf8)
  /\ toUtf8 [0xFFFD%N] = [xef; xbf; xbd]
  /\ ~ (forall reply errorString,
           fst (onReplyFinished reply) = [error errorString] ->
           toUtf8 errorString = QNetworkReply.buffer reply).
Proof.
  repeat split; try discriminate.
  intros H; specialize (H reply_500_not_utf8 _ eq_refl); discriminate H.
Qed.

(** C7, amended.  On Success the [success] signal carries the response body.
    On Failure the [error] signal carries the response body converted to a
    [QString] (decoded as UTF-8): the text whose UTF-8 form is the message
    of the exception the synchronous path throws, and for a body of ASCII
    text the body itself, character for byte.  The signal carries no
    status: two failed replies that differ in their status only emit the
    same signal. *)
Theorem async_payload (reply : QNetworkReply.t) :
  (failed reply = false ->
   fst (onReplyFinished reply) = [success (QNetworkReply.buffer reply)])
  /\ (failed reply = true ->
      fst (onReplyFinished reply)
      = [error (fromUtf8 (QNetworkReply.buffer reply))]
      /\ fst (waitForResponse reply)
         = Throw (NetworkException.mk
                    (toInt (QNetworkReply.httpStatusCodeAttribute reply))
                    (toUtf8 (fromUtf8 (QNetworkReply.buffer reply))))
      /\ (asciiText (QNetworkReply.buffer reply) = true ->
          fromUtf8 (QNetworkReply.buffer reply)
          = map b2n (QNetworkReply.buffer reply)
          /\ toUtf8 (fromUtf8 (QNetworkReply.buffer reply))
             = QNetworkReply.buffer reply)
      /\ (forall v : QVariant,
             failed (withStatus v reply) = true ->
             fst (onReplyFinished (withStatus v reply))
             = fst (onReplyFinished reply))).
Proof.
  rewrite waitForResponse_eq, onReplyFinished_eq.
  split; intros Hf; rewrite Hf; [reflexivity|].
  split; [reflexivity|]; split; [reflexivity|]; split.
  - intros Hascii; split; [apply fromUtf8_ascii; exact Hascii|].
    apply (text_round_trip _ Hascii).
  - intros v Hv; rewrite onReplyFinished_eq, Hv; reflexivity.
Qed.

Lemma async_payload_witness :
  failed reply_404 = true
  /\ asciiText (QNetworkReply.buffer reply_404) = true
  /\ failed (withStatus (Int 500) reply_404) = true
  /\ fst (onReplyFinished reply_404) = [error (qstr "not found")]
  /\ toUtf8 (qstr "not found") = QNetworkReply.buffer reply_404
  /\ fst (onReplyFinished (withStatus (Int 500) reply_404))
     = fst (onReplyFinished reply_404).
Proof.
  split; [reflexivity|]; split; [reflexivity|]; split; [reflexivity|].
  destruct (proj2 (async_payload reply_404) eq_refl) as [He [_ [Ha Hv]]].
  split; [exact He|]; split.
  - exact (proj2 (Ha eq_refl)).
  - exact (Hv (Int 500) eq_refl).
Defined.

(* ===================================================================== *)
(** ** Outgoing headers *)
(* ===================================================================== *)

Lemma filter_filter_negb {A : Type} (P : A -> bool) (l : list A) :
  filter P (filter (fun x => negb (P x)) l) = [].
Proof.
  induction l as [|x l IH]; [reflexivity|].
  cbn [filter]; destruct (P x) eqn:HP; cbn [negb filter]; [exact IH|].
  rewrite HP; exact IH.
Qed.

Lemma filter_nil_filter {A : Type} (P Q : A -> bool) (l : list A) :
  filter P l = [] -> filter P (filter Q l) = [].
Proof.
  induction l as [|x l IH]; [reflexivity|].
  cbn [filter]; destruct (P x) eqn:HP; [discriminate|]; intros H.
  destruct (Q x); cbn [filter]; [rewrite HP|]; exact (IH H).
Qed.

Lemma setRawHeader_url (name : QByteArray) (value : nullable QByteArray)
      (request : QNetworkRequest.t) :
  QNetworkRequest.url (QNetworkRequest.setRawHeader name value request)
  = QNetworkRequest.url request.
Proof. unfold QNetworkRequest.setRawHeader; destruct (isEmpty name); reflexivity. Qed.

Lemma setRawHeader_rawHeaders_ext (name : QByteArray)
      (value : nullable QByteArray) (r1 r2 : QNetworkRequest.t) :
  QNetworkRequest.rawHeaders r1 = QNetworkRequest.rawHeaders r2 ->
  QNetworkRequest.rawHeaders (QNetworkRequest.setRawHeader name value r1)
  = QNetworkRequest.rawHeaders (QNetworkRequest.setRawHeader name value r2).
Proof.
  intros H; unfold QNetworkRequest.setRawHeader.
  destruct (isEmpty name); simpl; rewrite H; reflexivity.
Qed.

Lemma setHeaders_loop_url (headers : QMap) (request : QNetworkRequest.t) :
  QNetworkRequest.url (setHeaders_loop headers request)
  = QNetworkRequest.url request.
Proof.
  revert request; induction headers as [|[key value] rest IH]; intros request;
    [reflexivity|].
  cbn [setHeaders_loop]; rewrite IH; apply setRawHeader_url.
Qed.

Lemma setHeaders_loop_rawHeaders_ext (headers : QMap) (r1 r2 : QNetworkRequest.t) :
  QNetworkRequest.rawHeaders r1 = QNetworkRequest.rawHeaders r2 ->
  QNetworkRequest.rawHeaders (setHeaders_loop headers r1)
  = QNetworkRequest.rawHeaders (setHeaders_loop headers r2).
Proof.
  revert r1 r2; induction headers as [|[key value] rest IH]; intros r1 r2 H;
    [exact H|].
  cbn [setHeaders_loop]; apply IH, setRawHeader_rawHeaders_ext, H.
Qed.

Lemma setRawHeader_Authorization (value : QByteArray) (request : QNetworkRequest.t) :
  QNetworkRequest.rawHeaders
    (QNetworkRequest.setRawHeader Authorization (Some value) request)
  = filter (fun h => negb (QNetworkRequest.sameHeaderName (fst h) Authorization))
           (QNetworkRequest.rawHeaders request)
    ++ [(Authorization, value)].
Proof. reflexivity. Qed.

Lemma setHeaders_with_token (token : QString) (headers : QMap)
      (request : QNetworkRequest.t) :
  token <> [] ->
  setHeaders token headers request
  = QNetworkRequest.setRawHeader
      Authorization (Some (toLocal8Bit (qstr "Bearer " ++ token)))
      (setHeaders_loop headers request).
Proof.
  intros H; unfold setHeaders.
  destruct token; [now elim H | reflexivity].
Qed.

Lemma bearer_value (token : QString) :
  toLocal8Bit (qstr "Bearer " ++ token) = bytes "Bearer " ++ toLocal8Bit token.
Proof.
  unfold toLocal8Bit.
  change (qstr "Bearer ") with [66; 101; 97; 114; 101; 114; 32]%N.
  cbn [app].
  repeat (rewrite toUtf8_cons_ascii by reflexivity).
  reflexivity.
Qed.

(** C5. With a non-empty token, [setHeaders] first applies the instance
    headers and then sets [Authorization]: the headers of the request are
    those left by the instance headers, less any header named Authorization,
    followed by the one header [Authorization: Bearer <token>].  The merged
    headers are a function of the instance headers and the token: they do
    not depend on the URL of the request. *)
Theorem bearer_token_header (token : QString) (headers : QMap)
        (request : QNetworkRequest.t) :
  token <> [] ->
  let value := toLocal8Bit (qstr "Bearer " ++ token) in
  let defaults := setHeaders_loop headers request in
  let merged := setHeaders token headers request in
  merged = QNetworkRequest.setRawHeader Authorization (Some value) defaults
  /\ QNetworkRequest.rawHeaders merged
     = filter (fun h => negb (QNetworkRequest.sameHeaderName (fst h) Authorization))
              (QNetworkRequest.rawHeaders defaults)
       ++ [(Authorization, value)]
  /\ QNetworkRequest.headersNamed Authorization merged = [(Authorization, value)]
  /\ value = bytes "Bearer " ++ toLocal8Bit token
  /\ (forall url1 url2 : QNetworkRequest.QUrl,
         QNetworkRequest.rawHeaders
           (setHeaders token headers (QNetworkRequest.new url1))
         = QNetworkRequest.rawHeaders
             (setHeaders token headers (QNetworkRequest.new url2))).
Proof.
  intros Htoken; cbv zeta.
  rewrite (setHeaders_with_token token headers request Htoken).
  split; [reflexivity|]; split; [apply setRawHeader_Authorization|].
  split; [|split; [apply bearer_value|]].
  - unfold QNetworkRequest.headersNamed.
    rewrite setRawHeader_Authorization, filter_app.
    rewrite (filter_filter_negb
               (fun h => QNetworkRequest.sameHeaderName (fst h) Authorization)).
    reflexivity.
  - intros url1 url2.
    rewrite !(setHeaders_with_token token headers _ Htoken).
    apply setRawHeader_rawHeaders_ext, setHeaders_loop_rawHeaders_ext.
    reflexivity.
Qed.

Lemma bearer_token_header_witness :
  qstr "abc" <> []
  /\ QNetworkRequest.rawHeaders
       (setHeaders (qstr "abc") basicAuthHeaders (QNetworkRequest.new localhost))
     = [ (bytes "X-Api-Version", bytes "2")
       ; (bytes "Authorization", bytes "Bearer abc") ]
  /\ QNetworkRequest.headersNamed Authorization
       (setHeaders (qstr "abc") basicAuthHeaders (QNetworkRequest.new localhost))
     = [ (bytes "Authorization", bytes "Bearer abc") ].
Proof.
  assert (H : qstr "abc" <> []) by discriminate.
  split; [exact H|].
  destruct (bearer_token_header (qstr "abc") basicAuthHeaders (QNetworkRequest.new localhost) H)
    as [_ [Hraw [Hnamed _]]].
  split; [exact Hraw | exact Hnamed].
Defined.

(** *** Header names *)

Lemma bytes_eqb_eq (a b : QByteArray) :
  QNetworkRequest.bytes_eqb a b = true <-> a = b.
Proof.
  revert b; induction a as [|x a IH]; intros [|y b]; cbn;
    try (split; [discriminate | discriminate]); [tauto|].
  rewrite andb_true_iff, IH; split.
  - intros [Hxy ->]; apply Byte.byte_dec_bl in Hxy; subst; reflexivity.
  - intros H; inversion H; split; [apply Byte.byte_dec_lb|]; reflexivity.
Qed.

Lemma sameHeaderName_iff (a b : QByteArray) :
  QNetworkRequest.sameHeaderName a b = true
  <-> map QNetworkRequest.toAsciiLower a = map QNetworkRequest.toAsciiLower b.
Proof. apply bytes_eqb_eq. Qed.

Lemma sameHeaderName_sym (a b : QByteArray) :
  QNetworkRequest.sameHeaderName a b = QNetworkRequest.sameHeaderName b a.
Proof.
  apply eq_true_iff_eq; rewrite !sameHeaderName_iff; split; congruence.
Qed.

Lemma sameHeaderName_refl (a : QByteArray) :
  QNetworkRequest.sameHeaderName a a = true.
Proof. apply sameHeaderName_iff; reflexivity. Qed.

Lemma sameHeaderName_trans (a b c : QByteArray) :
  QNetworkRequest.sameHeaderName a b = true ->
  QNetworkRequest.sameHeaderName a c = QNetworkRequest.sameHeaderName b c.
Proof.
  intros Hab; apply sameHeaderName_iff in Hab.
  apply eq_true_iff_eq; rewrite !sameHeaderName_iff, Hab; reflexivity.
Qed.

Lemma sameHeaderName_nonempty (a b : QByteArray) :
  QNetworkRequest.sameHeaderName a b = true ->
  isEmpty b = false -> isEmpty a = false.
Proof.
  intros H; apply sameHeaderName_iff in H.
  destruct a; destruct b; cbn in *; try discriminate; auto.
Qed.

Lemma named_same (a b : QByteArray) (names : list QByteArray) :
  QNetworkRequest.sameHeaderName a b = true ->
  existsb (fun n => QNetworkRequest.sameHeaderName n a) names
  = existsb (fun n => QNetworkRequest.sameHeaderName n b) names.
Proof.
  intros H; induction names as [|n names IH]; [reflexivity|].
  cbn [existsb]; rewrite IH; f_equal.
  rewrite (sameHeaderName_sym n a), (sameHeaderName_sym n b).
  apply sameHeaderName_trans; exact H.
Qed.

Lemma headersNamed_same (a b : QByteArray) (request : QNetworkRequest.t) :
  QNetworkRequest.sameHeaderName a b = true ->
  QNetworkRequest.headersNamed a request = QNetworkRequest.headersNamed b request.
Proof.
  intros H; unfold QNetworkRequest.headersNamed.
  apply filter_ext; intros h.
  rewrite (sameHeaderName_sym (fst h) a), (sameHeaderName_sym (fst h) b).
  apply sameHeaderName_trans; exact H.
Qed.

Lemma filter_named_erased (name other : QByteArray)
      (l : list QNetworkRequest.RawHeaderPair) :
  QNetworkRequest.sameHeaderName name other = false ->
  filter (fun h => QNetworkRequest.sameHeaderName (fst h) other)
         (filter (fun h => negb (QNetworkRequest.sameHeaderName (fst h) name)) l)
  = filter (fun h => QNetworkRequest.sameHeaderName (fst h) other) l.
Proof.
  intros Hne; induction l as [|h l IH]; [reflexivity|].
  cbn [filter].
  destruct (QNetworkRequest.sameHeaderName (fst h) other) eqn:Hho.
  - assert (Hhn : QNetworkRequest.sameHeaderName (fst h) name = false).
    { rewrite (sameHeaderName_trans _ _ name Hho), sameHeaderName_sym.
      exact Hne. }
    rewrite Hhn; cbn [negb filter]; rewrite Hho, IH; reflexivity.
  - destruct (negb (QNetworkRequest.sameHeaderName (fst h) name));
      cbn [filter]; [rewrite Hho|]; exact IH.
Qed.

Lemma headersNamed_setRawHeader_ne (name : QByteArray)
      (value : nullable QByteArray) (other : QByteArray)
      (request : QNetworkRequest.t) :
  QNetworkRequest.sameHeaderName name other = false ->
  QNetworkRequest.headersNamed other
    (QNetworkRequest.setRawHeader name value request)
  = QNetworkRequest.headersNamed other request.
Proof.
  intros Hne; unfold QNetworkRequest.setRawHeader.
  destruct (isEmpty name); [reflexivity|].
  unfold QNetworkRequest.headersNamed; cbn [QNetworkRequest.rawHeaders].
  destruct value as [value|].
  - rewrite filter_app; cbn [filter fst]; rewrite Hne, app_nil_r.
    apply filter_named_erased; exact Hne.
  - apply filter_named_erased; exact Hne.
Qed.

Lemma headersNamed_setRawHeader_eq (name : QByteArray)
      (value : nullable QByteArray) (request : QNetworkRequest.t) :
  isEmpty name = false ->
  QNetworkRequest.headersNamed name
    (QNetworkRequest.setRawHeader name value request)
  = match value with
    | Some bytes => [(name, bytes)]
    | None => []
    end.
Proof.
  intros Hname; unfold QNetworkRequest.setRawHeader; rewrite Hname.
  unfold QNetworkRequest.headersNamed; cbn [QNetworkRequest.rawHeaders].
  destruct value as [value|].
  - rewrite filter_app.
    rewrite (filter_filter_negb
               (fun h => QNetworkRequest.sameHeaderName (fst h) name)).
    cbn [filter fst app]; rewrite sameHeaderName_refl; reflexivity.
  - apply (filter_filter_negb
             (fun h => QNetworkRequest.sameHeaderName (fst h) name)).
Qed.

Lemma headersNamed_setHeaders_loop_ne (headers : QMap) (other : QByteArray)
      (request : QNetworkRequest.t) :
  existsb (fun n => QNetworkRequest.sameHeaderName n other)
          (instanceNames headers) = false ->
  QNetworkRequest.headersNamed other (setHeaders_loop headers request)
  = QNetworkRequest.headersNamed other request.
Proof.
  revert request; induction headers as [|[key value] rest IH];
    intros request H; [reflexivity|].
  cbn [instanceNames map existsb fst] in H.
  apply orb_false_iff in H; destruct H as [Hk Hrest].
  cbn [setHeaders_loop]; rewrite (IH _ Hrest).
  apply headersNamed_setRawHeader_ne; exact Hk.
Qed.

Lemma setHeaders_loop_app (l1 l2 : QMap) (request : QNetworkRequest.t) :
  setHeaders_loop (l1 ++ l2) request
  = setHeaders_loop l2 (setHeaders_loop l1 request).
Proof.
  revert request; induction l1 as [|[key value] l1 IH]; intros request;
    [reflexivity|].
  cbn [setHeaders_loop app]; apply IH.
Qed.

Lemma headersNamed_last_entry (before after : QMap) (key : QString)
      (value : nullable QString) (request : QNetworkRequest.t) :
  isEmpty (toLocal8Bit key) = false ->
  existsb (fun n => QNetworkRequest.sameHeaderName n (toLocal8Bit key))
          (instanceNames after) = false ->
  QNetworkRequest.headersNamed (toLocal8Bit key)
    (setHeaders_loop (before ++ (key, value) :: after) request)
  = headerSent key value.
Proof.
  intros Hkey Hafter.
  rewrite setHeaders_loop_app; cbn [setHeaders_loop].
  rewrite (headersNamed_setHeaders_loop_ne after _ _ Hafter).
  rewrite (headersNamed_setRawHeader_eq _ _ _ Hkey).
  destruct value; reflexivity.
Qed.

(** C6, as stated, fails: with an empty token, a client whose instance
    headers hold an [Authorization] header sends that header. *)
Lemma empty_token_counterexample :
  QNetworkRequest.rawHeaders
    (setHeaders [] basicAuthHeaders (QNetworkRequest.new localhost))
  = [ (bytes "Authorization", bytes "Basic dXNlcjpwdw==")
    ; (bytes "X-Api-Version", bytes "2") ]
  /\ QNetworkRequest.hasRawHeader Authorization
       (setHeaders [] basicAuthHeaders (QNetworkRequest.new localhost))
     = true
  /\ ~ (forall (headers : QMap) (url : QNetworkRequest.QUrl),
           QNetworkRequest.hasRawHeader Authorization
             (setHeaders [] headers (QNetworkRequest.new url))
           = false).
Proof.
  repeat split.
  intros H; specialize (H basicAuthHeaders localhost); discriminate H.
Qed.

(** C6, amended.  With an empty token [setHeaders] adds no [Authorization]
    header of its own.  When no instance header is named Authorization
    (compared without case) the request has no such header afterwards.
    When the instance headers have one, the request has exactly what the
    last instance header of that name gives: that header, with the
    instance's name and value, or none when its value is the null
    string. *)
Theorem empty_token_adds_no_header (headers : QMap) (request : QNetworkRequest.t) :
  (QNetworkRequest.hasRawHeader Authorization request = false ->
   existsb (fun n => QNetworkRequest.sameHeaderName n Authorization)
           (instanceNames headers) = false ->
   QNetworkRequest.hasRawHeader Authorization (setHeaders [] headers request)
   = false)
  /\ (forall (before after : QMap) (key : QString) (value : nullable QString),
         headers = before ++ (key, value) :: after ->
         QNetworkRequest.sameHeaderName (toLocal8Bit key) Authorization = true ->
         existsb (fun n => QNetworkRequest.sameHeaderName n Authorization)
                 (instanceNames after) = false ->
         QNetworkRequest.headersNamed Authorization
           (setHeaders [] headers request)
         = headerSent key value).
Proof.
  change (setHeaders [] headers request) with (setHeaders_loop headers request).
  split.
  - intros Hreq Hnames; unfold QNetworkRequest.hasRawHeader in *.
    rewrite (headersNamed_setHeaders_loop_ne headers Authorization request Hnames).
    exact Hreq.
  - intros before after key value -> Hkey Hafter.
    assert (Hsym : QNetworkRequest.sameHeaderName Authorization (toLocal8Bit key)
                   = true) by (rewrite sameHeaderName_sym; exact Hkey).
    rewrite (headersNamed_same _ _ _ Hsym).
    apply headersNamed_last_entry.
    + apply (sameHeaderName_nonempty _ _ Hkey); reflexivity.
    + rewrite (named_same _ _ _ Hkey); exact Hafter.
Qed.

Lemma empty_token_adds_no_header_witness :
  QNetworkRequest.hasRawHeader Authorization (QNetworkRequest.new localhost) = false
  /\ existsb (fun n => QNetworkRequest.sameHeaderName n Authorization)
             (instanceNames plainHeaders) = false
  /\ QNetworkRequest.hasRawHeader Authorization
       (setHeaders [] plainHeaders (QNetworkRequest.new localhost))
     = false
  /\ basicAuthHeaders
     = [] ++ (qstr "Authorization", Some (qstr "Basic dXNlcjpwdw=="))
          :: [(qstr "X-Api-Version", Some (qstr "2"))]
  /\ QNetworkRequest.sameHeaderName (toLocal8Bit (qstr "Authorization"))
       Authorization = true
  /\ existsb (fun n => QNetworkRequest.sameHeaderName n Authorization)
             (instanceNames [(qstr "X-Api-Version", Some (qstr "2"))]) = false
  /\ QNetworkRequest.headersNamed Authorization
       (setHeaders [] basicAuthHeaders (QNetworkRequest.new localhost))
     = headerSent (qstr "Authorization") (Some (qstr "Basic dXNlcjpwdw==")).
Proof.
  assert (H1 : existsb (fun n => QNetworkRequest.sameHeaderName n Authorization)
                       (instanceNames plainHeaders) = false)
    by (vm_compute; reflexivity).
  assert (H2 : QNetworkRequest.sameHeaderName (toLocal8Bit (qstr "Authorization"))
                 Authorization = true)
    by (vm_compute; reflexivity).
  assert (H3 : existsb (fun n => QNetworkRequest.sameHeaderName n Authorization)
                       (instanceNames [(qstr "X-Api-Version", Some (qstr "2"))])
               = false)
    by (vm_compute; reflexivity).
  split; [reflexivity|]; split; [exact H1|]; split.
  - exact (proj1 (empty_token_adds_no_header
                    plainHeaders (QNetworkRequest.new localhost))
                 eq_refl H1).
  - split; [reflexivity|]; split; [exact H2|]; split; [exact H3|].
    exact (proj2 (empty_token_adds_no_header
                    basicAuthHeaders (QNetworkRequest.new localhost))
                 [] [(qstr "X-Api-Version", Some (qstr "2"))]
                 (qstr "Authorization") (Some (qstr "Basic dXNlcjpwdw=="))
                 eq_refl H2 H3).
Defined.

(** An instance header [Authorization] whose value is the null string is
    not sent. *)
Example null_authorization_not_sent :
  QNetworkRequest.rawHeaders
    (setHeaders [] nullAuthHeaders (QNetworkRequest.new localhost))
  = [(bytes "X-Api-Version", bytes "2")].
Proof. vm_compute; reflexivity. Qed.

(** Setting and clearing the token: a request issued with the token "abc"
    carries [Authorization: Bearer abc]; after the token is cleared the next
    request carries no [Authorization] header. *)
Example token_set_then_cleared :
  let p0 := initial (QSsl.mkConfiguration []) in
  let p1 := setBearerToken (qstr "abc") p0 in
  let p2 := setBearerToken [] p1 in
  QNetworkRequest.rawHeaders
    (setHeaders (token p1) [] (QNetworkRequest.new localhost))
  = [(bytes "Authorization", bytes "Bearer abc")]
  /\ QNetworkRequest.rawHeaders
       (setHeaders (token p2) [] (QNetworkRequest.new localhost))
     = [].
Proof. split; reflexivity. Qed.

(** A header of the instance whose name differs from Authorization in case
    only is overwritten as well. *)
Example lower_case_authorization_overwritten :
  QNetworkRequest.rawHeaders
    (setHeaders (qstr "abc")
                [(qstr "authorization", Some (qstr "Basic dXNlcjpwdw=="))]
                (QNetworkRequest.new localhost))
  = [(bytes "Authorization", bytes "Bearer abc")].
Proof. reflexivity. Qed.

(* ===================================================================== *)
(** ** Entry points *)
(* ===================================================================== *)

Lemma sync_result (c : HttpClient.t) (reply : QNetworkReply.t) :
  fst (let '(result, reply') := waitForResponse reply in
       (result, submitted c reply'))
  = fst (waitForResponse reply)
  /\ manager (snd (let '(result, reply') := waitForResponse reply in
                   (result, submitted c reply')))
     = manager c ++ [snd (waitForResponse reply)].
Proof. destruct (waitForResponse reply); split; reflexivity. Qed.

(** C8.  [httpclient.cpp] defines an asynchronous and a synchronous entry
    point for GET, POST, PUT, PATCH and DELETE, and each of them builds a
    request for the URL, sets the merged headers on it and submits it to the
    manager (with the body for POST, PUT and PATCH): the asynchronous one
    connects the completion handler, the synchronous one waits for the
    reply.  For HEAD there is no entry point: [head] and [head_sync] are
    declared in the class but defined nowhere. *)
Theorem entry_points (transport : QNetworkAccessManager.Transport) :
  asyncEntryPoint transport HEAD = None
  /\ syncEntryPoint transport HEAD = None
  /\ (forall m : Method,
         m <> HEAD ->
         exists a s,
           asyncEntryPoint transport m = Some a
           /\ syncEntryPoint transport m = Some s
           /\ forall (p : Process) (c : HttpClient.t) (url : QString)
                     (data : QByteArray),
               let request :=
                 setHeaders (token p) (headers c)
                            (QNetworkRequest.new (QNetworkRequest.Url url)) in
               let reply :=
                 QNetworkAccessManager.createRequest
                   transport (operationOf m) request
                   (if takesBody m then Some data else None) in
               manager (callAsync a p c url data)
               = manager c
                 ++ [QNetworkReply.connect_finished
                       QNetworkReply.HttpClient_onReplyFinished reply]
               /\ fst (callSync s p c url data) = fst (waitForResponse reply)
               /\ manager (snd (callSync s p c url data))
                  = manager c ++ [snd (waitForResponse reply)]).
Proof.
  split; [reflexivity|]; split; [reflexivity|].
  intros m Hm.
  destruct m; try (now elim Hm);
    (eexists; eexists; split; [reflexivity|]; split; [reflexivity|]);
    intros p c url data; cbv zeta; (split; [reflexivity|]);
    apply sync_result.
Qed.

Lemma entry_points_witness :
  POST <> HEAD
  /\ exists a s,
      asyncEntryPoint okTransport POST = Some a
      /\ syncEntryPoint okTransport POST = Some s
      /\ fst (callSync s freshProcess HttpClient.new (qstr "http://localhost/")
                (bytes "{}"))
         = Return [x7b; x22; x6f; x6b; x22; x3a; x74; x72; x75; x65; x7d].
Proof.
  assert (H : POST <> HEAD) by discriminate.
  split; [exact H|].
  destruct (proj2 (proj2 (entry_points okTransport)) POST H)
    as [a [s [Ha [Hs Hcall]]]].
  exists a, s; split; [exact Ha|]; split; [exact Hs|].
  destruct (Hcall freshProcess HttpClient.new (qstr "http://localhost/")
                  (bytes "{}")) as [_ [Hsync _]].
  rewrite Hsync; reflexivity.
Defined.

(** A GET answered 200 with body [{"ok":true}]: the synchronous call returns
    the body, and the completion of the asynchronous call emits [success]
    with the same bytes. *)
Example get_200 :
  fst (get_sync okTransport freshProcess HttpClient.new (qstr "http://localhost/"))
  = Return [x7b; x22; x6f; x6b; x22; x3a; x74; x72; x75; x65; x7d]
  /\ map (fun reply => fst (finished reply))
         (manager (get okTransport freshProcess HttpClient.new
                       (qstr "http://localhost/")))
     = [[success [x7b; x22; x6f; x6b; x22; x3a; x74; x72; x75; x65; x7d]]].
Proof. split; reflexivity. Qed.

(* ===================================================================== *)
(** ** Root certificates *)
(* ===================================================================== *)

(** C9.  [setRootCA] throws exactly when the certificate file cannot be
    opened for reading; the exception is thrown by the call itself and has
    status 0.  When the file can be opened the call returns, and the
    certificate made of the bytes of the file has been appended to the CA
    certificates of the default configuration of the process. *)
Theorem setRootCA_outcome (fs : QSsl.FileSystem) (certPath : QString)
        (p : Process) :
  ((exists e, setRootCA fs certPath p = Throw e)
   <-> (exists errorString, fs certPath = QSsl.OpenFailed errorString))
  /\ (forall e, setRootCA fs certPath p = Throw e ->
                NetworkException.getStatusCode e = 0%Z)
  /\ (forall contents,
         fs certPath = QSsl.Opened contents ->
         setRootCA fs certPath p
         = Return
             {| token := token p
              ; defaultConfiguration :=
                  QSsl.mkConfiguration
                    (QSsl.caCertificates (defaultConfiguration p)
                     ++ [QSsl.Certificate contents]) |}).
Proof.
  unfold setRootCA.
  destruct (fs certPath) as [contents | errorString].
  - split; [|split].
    + split; intros [x Hx]; discriminate Hx.
    + intros e He; discriminate He.
    + intros contents' H; inversion H; reflexivity.
  - split; [|split].
    + split; intros _; eexists; reflexivity.
    + intros e He; inversion He; reflexivity.
    + intros contents H; discriminate H.
Qed.

Lemma setRootCA_outcome_witness :
  readableFile (qstr "/etc/ssl/ca.pem") = QSsl.Opened pem
  /\ setRootCA readableFile (qstr "/etc/ssl/ca.pem") freshProcess
     = Return {| token := []
               ; defaultConfiguration :=
                   QSsl.mkConfiguration [QSsl.Certificate pem] |}
  /\ (exists e, setRootCA noSuchFile (qstr "/etc/ssl/ca.pem") freshProcess = Throw e)
  /\ (forall e, setRootCA noSuchFile (qstr "/etc/ssl/ca.pem") freshProcess = Throw e ->
                NetworkException.getStatusCode e = 0%Z).
Proof.
  split; [reflexivity|]; split; [|split].
  - apply (proj2 (proj2 (setRootCA_outcome readableFile (qstr "/etc/ssl/ca.pem")
                                           freshProcess)) pem); reflexivity.
  - apply (proj1 (setRootCA_outcome noSuchFile (qstr "/etc/ssl/ca.pem") freshProcess)).
    exists (qstr "No such file or directory"); reflexivity.
  - exact (proj1 (proj2 (setRootCA_outcome noSuchFile (qstr "/etc/ssl/ca.pem")
                                           freshProcess))).
Defined.

(* ===================================================================== *)
(** ** The reply after completion *)
(* ===================================================================== *)

Lemma waitForResponse_snd (reply : QNetworkReply.t) :
  snd (waitForResponse reply)
  = QNetworkReply.deleteLater
      (snd (QNetworkReply.readAll
              (QNetworkReply.connect_finished QNetworkReply.QEventLoop_quit reply))).
Proof.
  unfold waitForResponse; simpl.
  destruct (_ || _); reflexivity.
Qed.

Lemma onReplyFinished_snd (reply : QNetworkReply.t) :
  snd (onReplyFinished reply)
  = QNetworkReply.deleteLater (snd (QNetworkReply.readAll reply)).
Proof.
  unfold onReplyFinished; simpl.
  destruct (_ || _); reflexivity.
Qed.

Lemma finished_single_snd (reply : QNetworkReply.t) :
  QNetworkReply.finishedSlots reply = [QNetworkReply.HttpClient_onReplyFinished] ->
  snd (finished reply) = snd (onReplyFinished reply).
Proof.
  intros H; unfold finished; rewrite H; simpl.
  destruct (onReplyFinished reply) as [emitted reply']; reflexivity.
Qed.

Lemma async_entry_submit (transport : QNetworkAccessManager.Transport)
      (m : Method) (a : AsyncEntry) (p : Process) (c : HttpClient.t)
      (url : QString) (data : QByteArray) :
  asyncEntryPoint transport m = Some a ->
  callAsync a p c url data
  = submitted c (QNetworkReply.connect_finished
                   QNetworkReply.HttpClient_onReplyFinished
                   (submittedReply transport m p c url data)).
Proof.
  intros H; destruct m; simpl in H; inversion H; reflexivity.
Qed.

Lemma sync_pair (c : HttpClient.t) (reply : QNetworkReply.t) :
  (let '(result, reply') := waitForResponse reply in
   (result, submitted c reply'))
  = (fst (waitForResponse reply), submitted c (snd (waitForResponse reply))).
Proof. destruct (waitForResponse reply); reflexivity. Qed.

Lemma sync_entry_submit (transport : QNetworkAccessManager.Transport)
      (m : Method) (s : SyncEntry) (p : Process) (c : HttpClient.t)
      (url : QString) (data : QByteArray) :
  syncEntryPoint transport m = Some s ->
  callSync s p c url data
  = (fst (waitForResponse (submittedReply transport m p c url data)),
     submitted c (snd (waitForResponse (submittedReply transport m p c url data)))).
Proof.
  intros H; destruct m; simpl in H; inversion H; subst s; clear H;
    exact (sync_pair c _).
Qed.

Lemma onReplyFinished_connect (slot : QNetworkReply.Slot) (reply : QNetworkReply.t) :
  fst (onReplyFinished (QNetworkReply.connect_finished slot reply))
  = fst (onReplyFinished reply).
Proof. rewrite !onReplyFinished_eq; reflexivity. Qed.

Lemma finished_async_reply (reply : QNetworkReply.t) :
  QNetworkReply.finishedSlots reply = [] ->
  fst (finished (QNetworkReply.connect_finished
                   QNetworkReply.HttpClient_onReplyFinished reply))
  = fst (onReplyFinished reply).
Proof.
  intros H; rewrite finished_single by (simpl; rewrite H; reflexivity).
  apply onReplyFinished_connect.
Qed.

(** X1.  Whatever the outcome, each completion path drains the reply and calls
    [deleteLater] on it exactly once.  The reply of a synchronous call has
    been scheduled for deletion once when the call is over; the reply of an
    asynchronous call has not been scheduled when the call returns, and has
    been scheduled once after its [finished] signal is delivered. *)
Theorem reply_disposed_once :
  (forall reply : QNetworkReply.t,
      QNetworkReply.deleteLaterCalls (snd (waitForResponse reply))
      = S (QNetworkReply.deleteLaterCalls reply)
      /\ QNetworkReply.deleteLaterCalls (snd (onReplyFinished reply))
         = S (QNetworkReply.deleteLaterCalls reply)
      /\ QNetworkReply.buffer (snd (waitForResponse reply)) = []
      /\ QNetworkReply.buffer (snd (onReplyFinished reply)) = [])
  /\ (forall transport m s p c url data,
         syncEntryPoint transport m = Some s ->
         exists reply,
           manager (snd (callSync s p c url data)) = manager c ++ [reply]
           /\ QNetworkReply.deleteLaterCalls reply = 1)
  /\ (forall transport m a p c url data,
         asyncEntryPoint transport m = Some a ->
         exists reply,
           manager (callAsync a p c url data) = manager c ++ [reply]
           /\ QNetworkReply.deleteLaterCalls reply = 0
           /\ QNetworkReply.deleteLaterCalls (snd (finished reply)) = 1).
Proof.
  split; [|split].
  - intros reply; rewrite waitForResponse_snd, onReplyFinished_snd.
    repeat split.
  - intros transport m s p c url data Hs.
    rewrite (sync_entry_submit transport m s p c url data Hs).
    eexists; split; [reflexivity|].
    rewrite waitForResponse_snd; reflexivity.
  - intros transport m a p c url data Ha.
    rewrite (async_entry_submit transport m a p c url data Ha).
    eexists; split; [reflexivity|]; split; [reflexivity|].
    rewrite finished_single_snd by reflexivity.
    rewrite onReplyFinished_snd; reflexivity.
Qed.

Lemma reply_disposed_once_witness :
  syncEntryPoint notFoundTransport DELETE = Some (SyncUrl (del_sync notFoundTransport))
  /\ exists reply,
      manager (snd (callSync (SyncUrl (del_sync notFoundTransport)) freshProcess
                      HttpClient.new (qstr "http://localhost/") []))
      = manager HttpClient.new ++ [reply]
      /\ QNetworkReply.deleteLaterCalls reply = 1.
Proof.
  split; [reflexivity|].
  apply (proj1 (proj2 reply_disposed_once) notFoundTransport DELETE); reflexivity.
Defined.

(** X2.  The reply of a synchronous call is never connected to
    [onReplyFinished]: the only receiver of its [finished] signal is the
    [quit] of the local event loop, so the completion of that reply emits
    neither [success] nor [error].  (Signals emitted while the call waits
    come from other, asynchronous replies of the client.) *)
Theorem sync_call_emits_no_signal
        (transport : QNetworkAccessManager.Transport) (m : Method)
        (s : SyncEntry) (p : Process) (c : HttpClient.t) (url : QString)
        (data : QByteArray) :
  syncEntryPoint transport m = Some s ->
  exists reply,
    manager (snd (callSync s p c url data)) = manager c ++ [reply]
    /\ QNetworkReply.finishedSlots reply = [QNetworkReply.QEventLoop_quit]
    /\ fst (finished reply) = [].
Proof.
  intros Hs.
  rewrite (sync_entry_submit transport m s p c url data Hs).
  eexists; split; [reflexivity|].
  assert (Hslots : QNetworkReply.finishedSlots
                     (snd (waitForResponse (submittedReply transport m p c url data)))
                   = [QNetworkReply.QEventLoop_quit])
    by (rewrite waitForResponse_snd; reflexivity).
  split; [exact Hslots|].
  unfold finished; rewrite Hslots; reflexivity.
Qed.

Lemma sync_call_emits_no_signal_witness :
  syncEntryPoint notFoundTransport POST = Some (SyncUrlData (post_sync notFoundTransport))
  /\ exists reply,
      manager (snd (callSync (SyncUrlData (post_sync notFoundTransport)) freshProcess
                      HttpClient.new (qstr "http://localhost/") (bytes "{}")))
      = manager HttpClient.new ++ [reply]
      /\ QNetworkReply.finishedSlots reply = [QNetworkReply.QEventLoop_quit]
      /\ fst (finished reply) = [].
Proof.
  split; [reflexivity|].
  apply (sync_call_emits_no_signal notFoundTransport POST); reflexivity.
Defined.

(** X3.  The two calls for one method agree.  Made with the same process state,
    client, URL and body, and answered alike by the transport, the
    synchronous call returns a body exactly when the completion of the
    asynchronous call emits [success] with that body, and it throws exactly
    when the completion emits [error]; the message of the exception is then
    the UTF-8 form of the string the signal carries. *)
Theorem sync_and_async_agree
        (transport : QNetworkAccessManager.Transport) (m : Method)
        (a : AsyncEntry) (s : SyncEntry) (p : Process) (c : HttpClient.t)
        (url : QString) (data : QByteArray) :
  asyncEntryPoint transport m = Some a ->
  syncEntryPoint transport m = Some s ->
  exists reply,
    manager (callAsync a p c url data) = manager c ++ [reply]
    /\ (forall body,
           fst (callSync s p c url data) = Return body
           <-> fst (finished reply) = [success body])
    /\ (forall e,
           fst (callSync s p c url data) = Throw e ->
           exists errorString,
             fst (finished reply) = [error errorString]
             /\ NetworkException.message e = toStdString errorString)
    /\ (forall errorString,
           fst (finished reply) = [error errorString] ->
           exists e,
             fst (callSync s p c url data) = Throw e
             /\ NetworkException.message e = toStdString errorString).
Proof.
  intros Ha Hs.
  rewrite (async_entry_submit transport m a p c url data Ha).
  rewrite (sync_entry_submit transport m s p c url data Hs).
  eexists; split; [reflexivity|].
  rewrite finished_async_reply by reflexivity.
  cbn [fst]; rewrite waitForResponse_eq, onReplyFinished_eq.
  destruct (failed (submittedReply transport m p c url data)).
  - split; [|split].
    + intros body; split; intros H; discriminate H.
    + intros e He; inversion He; eexists; split; reflexivity.
    + intros errorString He; inversion He; eexists; split; reflexivity.
  - split; [|split].
    + intros body; split; intros H; inversion H; reflexivity.
    + intros e He; discriminate He.
    + intros errorString He; discriminate He.
Qed.

Lemma sync_and_async_agree_witness :
  asyncEntryPoint notFoundTransport PUT = Some (AsyncUrlData (put notFoundTransport))
  /\ syncEntryPoint notFoundTransport PUT = Some (SyncUrlData (put_sync notFoundTransport))
  /\ fst (callSync (SyncUrlData (put_sync notFoundTransport)) freshProcess
            HttpClient.new (qstr "http://localhost/") (bytes "{}"))
     = Throw (NetworkException.mk 404 (bytes "not found"))
  /\ exists reply,
      manager (callAsync (AsyncUrlData (put notFoundTransport)) freshProcess
                 HttpClient.new (qstr "http://localhost/") (bytes "{}"))
      = manager HttpClient.new ++ [reply]
      /\ exists errorString,
          fst (finished reply) = [error errorString]
          /\ bytes "not found" = toStdString errorString.
Proof.
  split; [reflexivity|]; split; [reflexivity|]; split; [reflexivity|].
  destruct (sync_and_async_agree notFoundTransport PUT _ _ freshProcess
              HttpClient.new (qstr "http://localhost/") (bytes "{}")
              eq_refl eq_refl) as [reply [Hm [_ [Hthrow _]]]].
  exists reply; split; [exact Hm|].
  exact (Hthrow _ eq_refl).
Defined.

(** X4.  What the result of a synchronous wait tells the caller.  A returned
    body is the whole response body of a reply without transport error and
    with a status of at most 300.  An exception whose status is at most 300
    (0 in particular) can only come from a transport error; without a
    transport error the status thrown is above 300. *)
Theorem sync_result_meaning (reply : QNetworkReply.t) :
  (forall body,
      fst (waitForResponse reply) = Return body ->
      QNetworkReply.error reply = QNetworkReply.NoError
      /\ (toInt (QNetworkReply.httpStatusCodeAttribute reply) <= 300)%Z
      /\ body = QNetworkReply.buffer reply)
  /\ (forall e,
         fst (waitForResponse reply) = Throw e ->
         NetworkException.getStatusCode e
         = toInt (QNetworkReply.httpStatusCodeAttribute reply)
         /\ ((NetworkException.getStatusCode e <= 300)%Z ->
             QNetworkReply.error reply <> QNetworkReply.NoError)
         /\ (QNetworkReply.error reply = QNetworkReply.NoError ->
             (NetworkException.getStatusCode e > 300)%Z)).
Proof.
  rewrite waitForResponse_eq; unfold failed.
  destruct (QNetworkReply.error reply) eqn:Herr; cbn [QNetworkReply.isError orb];
    try (split;
         [ intros body H; discriminate H
         | intros e H; inversion H; cbn;
           split; [reflexivity | split; intros; discriminate] ]).
  rewrite Z.gtb_ltb.
  destruct (Z.ltb_spec 300 (toInt (QNetworkReply.httpStatusCodeAttribute reply))).
  - split; [intros body H'; discriminate H'|].
    intros e He; inversion He; cbn.
    split; [reflexivity|]; split; intros; lia.
  - split; [|intros e He; discriminate He].
    intros body Hb; inversion Hb; repeat split; assumption.
Qed.

Lemma sync_result_meaning_witness :
  fst (waitForResponse reply_host_not_found) = Throw (NetworkException.mk 0 [])
  /\ (NetworkException.getStatusCode (NetworkException.mk 0 []) <= 300)%Z
  /\ QNetworkReply.error reply_host_not_found <> QNetworkReply.NoError.
Proof.
  split; [reflexivity|]; split; [cbn; lia|].
  apply (proj1 (proj2 (proj2 (sync_result_meaning reply_host_not_found)
                         (NetworkException.mk 0 []) eq_refl))).
  cbn; lia.
Defined.

(* ===================================================================== *)
(** ** What is submitted *)
(* ===================================================================== *)

Lemma setHeaders_url (token : QString) (headers : QMap)
      (request : QNetworkRequest.t) :
  QNetworkRequest.url (setHeaders token headers request)
  = QNetworkRequest.url request.
Proof.
  unfold setHeaders; destruct (negb (isEmpty token)).
  - rewrite setRawHeader_url; apply setHeaders_loop_url.
  - apply setHeaders_loop_url.
Qed.

(** X5.  Every entry point submits the URL it was given, unchanged and whatever
    it is, with the operation of its method; POST, PUT and PATCH submit the
    body they were given and GET and DELETE submit none.  The instance
    headers of the client are not changed by a call. *)
Theorem request_target_and_body
        (transport : QNetworkAccessManager.Transport) (m : Method)
        (p : Process) (c : HttpClient.t) (url : QString) (data : QByteArray) :
  (forall a,
      asyncEntryPoint transport m = Some a ->
      headers (callAsync a p c url data) = headers c
      /\ exists reply,
          manager (callAsync a p c url data) = manager c ++ [reply]
          /\ QNetworkRequest.url (QNetworkReply.request reply)
             = QNetworkRequest.Url url
          /\ QNetworkReply.operation reply = operationOf m
          /\ QNetworkReply.outgoingData reply
             = (if takesBody m then Some data else None))
  /\ (forall s,
         syncEntryPoint transport m = Some s ->
         headers (snd (callSync s p c url data)) = headers c
         /\ exists reply,
             manager (snd (callSync s p c url data)) = manager c ++ [reply]
             /\ QNetworkRequest.url (QNetworkReply.request reply)
                = QNetworkRequest.Url url
             /\ QNetworkReply.operation reply = operationOf m
             /\ QNetworkReply.outgoingData reply
                = (if takesBody m then Some data else None)).
Proof.
  split.
  - intros a Ha; rewrite (async_entry_submit transport m a p c url data Ha).
    split; [reflexivity|].
    eexists; split; [reflexivity|].
    split; [|split; reflexivity].
    cbn; apply setHeaders_url.
  - intros s Hs; rewrite (sync_entry_submit transport m s p c url data Hs).
    split; [reflexivity|].
    eexists; split; [reflexivity|].
    rewrite waitForResponse_snd.
    split; [|split; reflexivity].
    cbn; apply setHeaders_url.
Qed.

Lemma request_target_and_body_witness :
  asyncEntryPoint okTransport PATCH = Some (AsyncUrlData (patch okTransport))
  /\ exists reply,
      manager (callAsync (AsyncUrlData (patch okTransport))
                 (setBearerToken (qstr "abc") freshProcess)
                 (new_with_headers plainHeaders) [] (bytes "{}"))
      = manager (new_with_headers plainHeaders) ++ [reply]
      /\ QNetworkRequest.url (QNetworkReply.request reply) = QNetworkRequest.Url []
      /\ QNetworkReply.operation reply
         = QNetworkReply.CustomOperation (bytes "PATCH")
      /\ QNetworkReply.outgoingData reply = Some (bytes "{}").
Proof.
  split; [reflexivity|].
  exact (proj2 (proj1 (request_target_and_body
                         okTransport PATCH
                         (setBearerToken (qstr "abc") freshProcess)
                         (new_with_headers plainHeaders) [] (bytes "{}"))
                      _ eq_refl)).
Defined.

(* ===================================================================== *)
(** ** The message of an exception *)
(* ===================================================================== *)

Lemma c_str_split (s : std_string) :
  exists rest,
    s = c_str s ++ rest
    /\ ~ In x00 (c_str s)
    /\ (rest = [] \/ exists r, rest = x00 :: r).
Proof.
  induction s as [|b r [rest [Heq [Hnul Hrest]]]].
  - exists []; repeat split; auto.
  - cbn [c_str]; destruct (Byte.eqb b x00) eqn:Hb.
    + apply Byte.byte_dec_bl in Hb; subst b.
      exists (x00 :: r); repeat split; auto.
      right; eexists; reflexivity.
    + apply Byte.eqb_false in Hb.
      exists rest; split; [cbn [app]; f_equal; exact Heq|]; split; [|exact Hrest].
      intros [Hin | Hin]; [congruence | exact (Hnul Hin)].
Qed.

(** X6.  [what()] shows the stored message up to its first NUL byte: it is a
    prefix of the message, holds no NUL, and whatever of the message it
    leaves out starts with a NUL.  For an exception made from a status and a
    string, [getStatusCode] is that status and the message is the UTF-8 form
    of the string. *)
Theorem what_is_message_up_to_nul (statusCode : Z) (text : QString) :
  let e := NetworkException.new statusCode text in
  NetworkException.getStatusCode e = statusCode
  /\ NetworkException.message e = toUtf8 text
  /\ exists rest,
      toUtf8 text = NetworkException.what e ++ rest
      /\ ~ In x00 (NetworkException.what e)
      /\ (rest = [] \/ exists r, rest = x00 :: r).
Proof.
  cbv zeta; split; [reflexivity|]; split; [reflexivity|].
  apply (c_str_split (toUtf8 text)).
Qed.

(* ===================================================================== *)
(** ** Well-formed header names *)
(* ===================================================================== *)

Lemma named_map_filter_other (n : QByteArray)
      (l : list QNetworkRequest.RawHeaderPair) :
  existsb (fun n' => QNetworkRequest.sameHeaderName n' n)
          (map fst (filter (fun h => negb (QNetworkRequest.sameHeaderName (fst h) n))
                           l))
  = false.
Proof.
  induction l as [|h l IH]; [reflexivity|].
  cbn [filter]; destruct (QNetworkRequest.sameHeaderName (fst h) n) eqn:Hh;
    cbn [negb map existsb]; [exact IH|].
  rewrite Hh; exact IH.
Qed.

Lemma named_map_filter (P : QNetworkRequest.RawHeaderPair -> bool) (n : QByteArray)
      (l : list QNetworkRequest.RawHeaderPair) :
  existsb (fun n' => QNetworkRequest.sameHeaderName n' n) (map fst l) = false ->
  existsb (fun n' => QNetworkRequest.sameHeaderName n' n) (map fst (filter P l))
  = false.
Proof.
  induction l as [|h l IH]; [reflexivity|].
  cbn [map existsb filter]; intros H.
  apply orb_false_iff in H; destruct H as [Hh Hl].
  destruct (P h); cbn [map existsb]; [rewrite Hh|]; exact (IH Hl).
Qed.

Lemma distinctNames_map_filter (P : QNetworkRequest.RawHeaderPair -> bool)
      (l : list QNetworkRequest.RawHeaderPair) :
  distinctNames (map fst l) = true -> distinctNames (map fst (filter P l)) = true.
Proof.
  induction l as [|h l IH]; [reflexivity|].
  cbn [map distinctNames filter]; intros H.
  apply andb_true_iff in H; destruct H as [Hh Hl].
  destruct (P h); [|exact (IH Hl)].
  cbn [map distinctNames]; rewrite (IH Hl), andb_true_r.
  apply negb_true_iff, named_map_filter, negb_true_iff, Hh.
Qed.

Lemma distinctNames_snoc (n : QByteArray) (names : list QByteArray) :
  distinctNames names = true ->
  existsb (fun n' => QNetworkRequest.sameHeaderName n' n) names = false ->
  distinctNames (names ++ [n]) = true.
Proof.
  induction names as [|m names IH]; [reflexivity|].
  cbn [distinctNames existsb app]; intros H Hn.
  apply andb_true_iff in H; destruct H as [Hm Hl].
  apply orb_false_iff in Hn; destruct Hn as [Hmn Hln].
  rewrite (IH Hl Hln), andb_true_r.
  apply negb_true_iff in Hm; apply negb_true_iff.
  rewrite existsb_app; apply orb_false_iff; split; [exact Hm|].
  cbn [existsb]; rewrite orb_false_r, sameHeaderName_sym; exact Hmn.
Qed.

Lemma distinctNames_app_cons (n : QByteArray) (names rest : list QByteArray) :
  distinctNames (names ++ n :: rest) = true ->
  forallb (fun n' => negb (QNetworkRequest.sameHeaderName n' n)) names = true.
Proof.
  induction names as [|m names IH]; [reflexivity|].
  cbn [distinctNames forallb app]; intros H.
  apply andb_true_iff in H; destruct H as [Hm Hl].
  rewrite (IH Hl), andb_true_r.
  apply negb_true_iff in Hm; rewrite existsb_app in Hm.
  apply orb_false_iff in Hm; destruct Hm as [_ Hx].
  cbn [existsb] in Hx; apply orb_false_iff in Hx; destruct Hx as [Hx _].
  rewrite sameHeaderName_sym, Hx; reflexivity.
Qed.

Lemma distinctNames_remove (n : QByteArray) (names rest : list QByteArray) :
  distinctNames (names ++ n :: rest) = true ->
  distinctNames (names ++ rest) = true.
Proof.
  induction names as [|m names IH].
  - cbn [distinctNames app]; intros H.
    apply andb_true_iff in H; exact (proj2 H).
  - cbn [distinctNames app]; intros H.
    apply andb_true_iff in H; destruct H as [Hm Hl].
    rewrite (IH Hl), andb_true_r.
    apply negb_true_iff in Hm; apply negb_true_iff.
    rewrite existsb_app in *.
    apply orb_false_iff in Hm; destruct Hm as [Hnames Hrest].
    cbn [existsb] in Hrest; apply orb_false_iff in Hrest.
    apply orb_false_iff; split; [exact Hnames | exact (proj2 Hrest)].
Qed.

Lemma filter_names_id (n : QByteArray) (l : list QNetworkRequest.RawHeaderPair) :
  forallb (fun n' => negb (QNetworkRequest.sameHeaderName n' n)) (map fst l) = true ->
  filter (fun h => negb (QNetworkRequest.sameHeaderName (fst h) n)) l = l.
Proof.
  induction l as [|h l IH]; [reflexivity|].
  cbn [map forallb filter]; intros H.
  apply andb_true_iff in H; destruct H as [Hh Hl].
  rewrite Hh, (IH Hl); reflexivity.
Qed.

Lemma setRawHeader_well_formed (name : QByteArray) (value : nullable QByteArray)
      (request : QNetworkRequest.t) :
  distinctNames (headerNames request) = true ->
  nonEmptyNames (headerNames request) = true ->
  distinctNames (headerNames (QNetworkRequest.setRawHeader name value request))
  = true
  /\ nonEmptyNames (headerNames (QNetworkRequest.setRawHeader name value request))
     = true.
Proof.
  intros Hd Hn; unfold QNetworkRequest.setRawHeader.
  destruct (isEmpty name) eqn:Hname; [split; assumption|].
  unfold headerNames in *; cbn [QNetworkRequest.rawHeaders].
  assert (Hd' : distinctNames
                  (map fst (filter (fun h => negb (QNetworkRequest.sameHeaderName
                                                     (fst h) name))
                                   (QNetworkRequest.rawHeaders request))) = true)
    by (apply distinctNames_map_filter; exact Hd).
  assert (Hn' : nonEmptyNames
                  (map fst (filter (fun h => negb (QNetworkRequest.sameHeaderName
                                                     (fst h) name))
                                   (QNetworkRequest.rawHeaders request))) = true).
  { unfold nonEmptyNames in *; apply forallb_forall; intros n Hin.
    apply in_map_iff in Hin; destruct Hin as [h [<- Hin]].
    apply filter_In in Hin.
    apply (proj1 (forallb_forall _ _) Hn), in_map, (proj1 Hin). }
  destruct value as [value|]; [|split; assumption].
  rewrite map_app; cbn [map fst]; split.
  - apply distinctNames_snoc; [exact Hd' | apply named_map_filter_other].
  - unfold nonEmptyNames in *; rewrite forallb_app.
    apply andb_true_iff; split; [exact Hn'|].
    cbn [forallb]; rewrite Hname; reflexivity.
Qed.

Lemma setHeaders_loop_well_formed (headers : QMap) (request : QNetworkRequest.t) :
  distinctNames (headerNames request) = true ->
  nonEmptyNames (headerNames request) = true ->
  distinctNames (headerNames (setHeaders_loop headers request)) = true
  /\ nonEmptyNames (headerNames (setHeaders_loop headers request)) = true.
Proof.
  revert request; induction headers as [|[key value] rest IH];
    intros request Hd Hn; [split; assumption|].
  cbn [setHeaders_loop].
  destruct (setRawHeader_well_formed (toLocal8Bit key) (toLocal8Bit_nullable value)
                                     request Hd Hn) as [Hd' Hn'].
  exact (IH _ Hd' Hn').
Qed.

(** X7.  [setHeaders] keeps the header names of a request well formed: if
    no two headers of the request had the same name (compared without
    case) and none had an empty name, that is still so afterwards, whatever
    the instance headers and the token.  In particular the headers of every
    new request have pairwise distinct, non-empty names. *)
Theorem merged_headers_well_formed (token : QString) (headers : QMap) :
  (forall request : QNetworkRequest.t,
      distinctNames (headerNames request) = true ->
      nonEmptyNames (headerNames request) = true ->
      distinctNames (headerNames (setHeaders token headers request)) = true
      /\ nonEmptyNames (headerNames (setHeaders token headers request)) = true)
  /\ (forall url : QNetworkRequest.QUrl,
         distinctNames
           (headerNames (setHeaders token headers (QNetworkRequest.new url)))
         = true
         /\ nonEmptyNames
              (headerNames (setHeaders token headers (QNetworkRequest.new url)))
            = true).
Proof.
  assert (H : forall request : QNetworkRequest.t,
             distinctNames (headerNames request) = true ->
             nonEmptyNames (headerNames request) = true ->
             distinctNames (headerNames (setHeaders token headers request)) = true
             /\ nonEmptyNames (headerNames (setHeaders token headers request))
                = true).
  { intros request Hd Hn; unfold setHeaders.
    destruct (setHeaders_loop_well_formed headers request Hd Hn) as [Hd' Hn'].
    destruct (negb (isEmpty token)); [|split; assumption].
    apply setRawHeader_well_formed; assumption. }
  split; [exact H|].
  intros url; apply H; reflexivity.
Qed.

Lemma merged_headers_well_formed_witness :
  QNetworkRequest.rawHeaders
    (setHeaders (qstr "abc") clashingHeaders (QNetworkRequest.new localhost))
  = [ (bytes "accept", bytes "application/json")
    ; (bytes "Authorization", bytes "Bearer abc") ]
  /\ distinctNames
       (headerNames
          (setHeaders (qstr "abc") clashingHeaders (QNetworkRequest.new localhost)))
     = true
  /\ nonEmptyNames
       (headerNames
          (setHeaders (qstr "abc") clashingHeaders (QNetworkRequest.new localhost)))
     = true.
Proof.
  split; [vm_compute; reflexivity|].
  exact (proj2 (merged_headers_well_formed (qstr "abc") clashingHeaders) localhost).
Defined.

(* ===================================================================== *)
(** ** The instance headers that are sent *)
(* ===================================================================== *)

Lemma setHeaders_loop_distinct (headers : QMap) (request : QNetworkRequest.t) :
  distinctNames (headerNames request ++ instanceNames headers) = true ->
  nonEmptyNames (instanceNames headers) = true ->
  QNetworkRequest.rawHeaders (setHeaders_loop headers request)
  = QNetworkRequest.rawHeaders request ++ sentHeaders headers.
Proof.
  revert request; induction headers as [|[key value] rest IH];
    intros request Hd Hn; [symmetry; apply app_nil_r|].
  cbn [setHeaders_loop sentHeaders instanceNames map fst] in *.
  unfold nonEmptyNames in Hn; cbn [forallb] in Hn.
  apply andb_true_iff in Hn; destruct Hn as [Hkey Hrest].
  apply negb_true_iff in Hkey.
  assert (Hset : QNetworkRequest.rawHeaders
                   (QNetworkRequest.setRawHeader (toLocal8Bit key)
                      (toLocal8Bit_nullable value) request)
                 = QNetworkRequest.rawHeaders request ++ headerSent key value).
  { unfold QNetworkRequest.setRawHeader; rewrite Hkey.
    cbn [QNetworkRequest.rawHeaders].
    rewrite (filter_names_id _ _ (distinctNames_app_cons _ _ _ Hd)).
    destruct value; [reflexivity | symmetry; apply app_nil_r]. }
  rewrite IH; [rewrite Hset, <- app_assoc; reflexivity | | exact Hrest].
  unfold headerNames; rewrite Hset.
  destruct value as [value|]; cbn [headerSent].
  - rewrite map_app, <- app_assoc; exact Hd.
  - rewrite app_nil_r; exact (distinctNames_remove _ _ _ Hd).
Qed.

Lemma setHeaders_token_value (token : QString) (headers : QMap)
      (request : QNetworkRequest.t) :
  token <> [] ->
  QNetworkRequest.rawHeaders (setHeaders token headers request)
  = filter (fun h => negb (QNetworkRequest.sameHeaderName (fst h) Authorization))
           (QNetworkRequest.rawHeaders (setHeaders_loop headers request))
    ++ [(Authorization, bytes "Bearer " ++ toLocal8Bit token)].
Proof.
  intros H; rewrite (setHeaders_with_token token headers request H).
  rewrite setRawHeader_Authorization, bearer_value; reflexivity.
Qed.

Lemma sentHeaders_not_named (other : QByteArray) (headers : QMap) :
  existsb (fun n => QNetworkRequest.sameHeaderName n other)
          (instanceNames headers) = false ->
  filter (fun h => negb (QNetworkRequest.sameHeaderName (fst h) other))
         (sentHeaders headers)
  = sentHeaders headers.
Proof.
  induction headers as [|[key value] rest IH]; [reflexivity|].
  cbn [instanceNames map existsb fst sentHeaders]; intros H.
  apply orb_false_iff in H; destruct H as [Hk Hrest].
  rewrite filter_app; f_equal; [|exact (IH Hrest)].
  destruct value; cbn [headerSent filter fst]; [rewrite Hk|]; reflexivity.
Qed.

(** X8.  When the names of the instance headers are non-empty and pairwise
    distinct (compared without case), a new request carries the instance
    headers whose value is not the null string, converted to bytes, in the
    order of the map, and no other instance header.  With an empty token it
    carries nothing else; with a token it carries those not named
    Authorization, followed by [Authorization: Bearer <token>]. *)
Theorem instance_headers_sent (token : QString) (headers : QMap)
        (url : QNetworkRequest.QUrl) :
  distinctNames (instanceNames headers) = true ->
  nonEmptyNames (instanceNames headers) = true ->
  QNetworkRequest.rawHeaders (setHeaders_loop headers (QNetworkRequest.new url))
  = sentHeaders headers
  /\ (token = [] ->
      QNetworkRequest.rawHeaders
        (setHeaders token headers (QNetworkRequest.new url))
      = sentHeaders headers)
  /\ (token <> [] ->
      QNetworkRequest.rawHeaders
        (setHeaders token headers (QNetworkRequest.new url))
      = filter (fun h => negb (QNetworkRequest.sameHeaderName (fst h) Authorization))
               (sentHeaders headers)
        ++ [(Authorization, bytes "Bearer " ++ toLocal8Bit token)])
  /\ (token <> [] ->
      existsb (fun n => QNetworkRequest.sameHeaderName n Authorization)
              (instanceNames headers) = false ->
      QNetworkRequest.rawHeaders
        (setHeaders token headers (QNetworkRequest.new url))
      = sentHeaders headers
        ++ [(Authorization, bytes "Bearer " ++ toLocal8Bit token)]).
Proof.
  intros Hd Hn.
  assert (Hloop : QNetworkRequest.rawHeaders
                    (setHeaders_loop headers (QNetworkRequest.new url))
                  = sentHeaders headers)
    by (apply (setHeaders_loop_distinct headers (QNetworkRequest.new url));
        assumption).
  split; [exact Hloop|]; split; [intros ->; exact Hloop|]; split.
  - intros Htoken.
    rewrite (setHeaders_token_value token headers _ Htoken), Hloop; reflexivity.
  - intros Htoken Hauth.
    rewrite (setHeaders_token_value token headers _ Htoken), Hloop.
    rewrite (sentHeaders_not_named _ _ Hauth); reflexivity.
Qed.

Lemma instance_headers_sent_witness :
  distinctNames (instanceNames nullAuthHeaders) = true
  /\ nonEmptyNames (instanceNames nullAuthHeaders) = true
  /\ qstr "abc" <> []
  /\ QNetworkRequest.rawHeaders
       (setHeaders [] nullAuthHeaders (QNetworkRequest.new localhost))
     = [ (bytes "X-Api-Version", bytes "2") ]
  /\ QNetworkRequest.rawHeaders
       (setHeaders (qstr "abc") plainHeaders (QNetworkRequest.new localhost))
     = [ (bytes "Accept", bytes "application/json")
       ; (bytes "X-Api-Version", bytes "2")
       ; (bytes "Authorization", bytes "Bearer abc") ].
Proof.
  assert (H : qstr "abc" <> []) by discriminate.
  assert (Hd : distinctNames (instanceNames nullAuthHeaders) = true)
    by (vm_compute; reflexivity).
  assert (Hn : nonEmptyNames (instanceNames nullAuthHeaders) = true)
    by (vm_compute; reflexivity).
  assert (Hd' : distinctNames (instanceNames plainHeaders) = true)
    by (vm_compute; reflexivity).
  assert (Hn' : nonEmptyNames (instanceNames plainHeaders) = true)
    by (vm_compute; reflexivity).
  split; [exact Hd|]; split; [exact Hn|]; split; [exact H|]; split.
  - rewrite (proj1 (proj2 (instance_headers_sent [] nullAuthHeaders localhost
                                                  Hd Hn)) eq_refl).
    vm_compute; reflexivity.
  - rewrite (proj1 (proj2 (proj2 (instance_headers_sent (qstr "abc") plainHeaders
                                                         localhost Hd' Hn'))) H).
    vm_compute; reflexivity.
Defined.

(* ===================================================================== *)
(** ** The process-wide settings *)
(* ===================================================================== *)

(** X9.  The bearer token is shared by every client of the process.  Once a
    non-empty token is set, the request submitted by any entry point of any
    client has exactly one [Authorization] header, [Bearer <token>].  For a
    client whose instance headers have non-empty, pairwise distinct names
    the whole header list is known: with the token set it is the instance
    headers that have a value and are not named Authorization, followed by
    the [Authorization] header of the token; once the token is set to the
    empty string again it is the instance headers that have a value, an
    [Authorization] header of the instance included. *)
Theorem token_is_shared
        (transport : QNetworkAccessManager.Transport) (m : Method)
        (jwtToken : QString) (p : Process) (c : HttpClient.t) (url : QString)
        (data : QByteArray) :
  jwtToken <> [] ->
  (forall a,
      asyncEntryPoint transport m = Some a ->
      (exists reply,
          manager (callAsync a (setBearerToken jwtToken p) c url data)
          = manager c ++ [reply]
          /\ QNetworkRequest.headersNamed Authorization (QNetworkReply.request reply)
             = [(Authorization, bytes "Bearer " ++ toLocal8Bit jwtToken)]
          /\ (distinctNames (instanceNames (headers c)) = true ->
              nonEmptyNames (instanceNames (headers c)) = true ->
              QNetworkRequest.rawHeaders (QNetworkReply.request reply)
              = filter (fun h => negb (QNetworkRequest.sameHeaderName
                                         (fst h) Authorization))
                       (sentHeaders (headers c))
                ++ [(Authorization, bytes "Bearer " ++ toLocal8Bit jwtToken)]))
      /\ (exists reply,
             manager (callAsync a (setBearerToken [] (setBearerToken jwtToken p))
                        c url data)
             = manager c ++ [reply]
             /\ (distinctNames (instanceNames (headers c)) = true ->
                 nonEmptyNames (instanceNames (headers c)) = true ->
                 QNetworkRequest.rawHeaders (QNetworkReply.request reply)
                 = sentHeaders (headers c))))
  /\ (forall s,
         syncEntryPoint transport m = Some s ->
         (exists reply,
             manager (snd (callSync s (setBearerToken jwtToken p) c url data))
             = manager c ++ [reply]
             /\ QNetworkRequest.headersNamed Authorization
                  (QNetworkReply.request reply)
                = [(Authorization, bytes "Bearer " ++ toLocal8Bit jwtToken)]
             /\ (distinctNames (instanceNames (headers c)) = true ->
                 nonEmptyNames (instanceNames (headers c)) = true ->
                 QNetworkRequest.rawHeaders (QNetworkReply.request reply)
                 = filter (fun h => negb (QNetworkRequest.sameHeaderName
                                            (fst h) Authorization))
                          (sentHeaders (headers c))
                   ++ [(Authorization, bytes "Bearer " ++ toLocal8Bit jwtToken)]))
         /\ (exists reply,
                manager (snd (callSync s (setBearerToken []
                                            (setBearerToken jwtToken p))
                                c url data))
                = manager c ++ [reply]
                /\ (distinctNames (instanceNames (headers c)) = true ->
                    nonEmptyNames (instanceNames (headers c)) = true ->
                    QNetworkRequest.rawHeaders (QNetworkReply.request reply)
                    = sentHeaders (headers c)))).
Proof.
  intros Htoken.
  assert (Hnamed : forall request,
             QNetworkRequest.headersNamed Authorization
               (setHeaders jwtToken (headers c) request)
             = [(Authorization, bytes "Bearer " ++ toLocal8Bit jwtToken)]).
  { intros request; unfold QNetworkRequest.headersNamed.
    rewrite (setHeaders_token_value jwtToken (headers c) request Htoken).
    rewrite filter_app.
    rewrite (filter_filter_negb
               (fun h => QNetworkRequest.sameHeaderName (fst h) Authorization)).
    reflexivity. }
  assert (Hset : forall qurl,
             distinctNames (instanceNames (headers c)) = true ->
             nonEmptyNames (instanceNames (headers c)) = true ->
             QNetworkRequest.rawHeaders
               (setHeaders jwtToken (headers c) (QNetworkRequest.new qurl))
             = filter (fun h => negb (QNetworkRequest.sameHeaderName
                                        (fst h) Authorization))
                      (sentHeaders (headers c))
               ++ [(Authorization, bytes "Bearer " ++ toLocal8Bit jwtToken)]).
  { intros qurl Hd Hn.
    rewrite (setHeaders_token_value jwtToken (headers c) _ Htoken).
    rewrite (setHeaders_loop_distinct (headers c) (QNetworkRequest.new qurl) Hd Hn).
    reflexivity. }
  assert (Hclear : forall qurl,
             distinctNames (instanceNames (headers c)) = true ->
             nonEmptyNames (instanceNames (headers c)) = true ->
             QNetworkRequest.rawHeaders
               (setHeaders [] (headers c) (QNetworkRequest.new qurl))
             = sentHeaders (headers c)).
  { intros qurl Hd Hn.
    exact (setHeaders_loop_distinct (headers c) (QNetworkRequest.new qurl) Hd Hn). }
  split.
  - intros a Ha; split.
    + rewrite (async_entry_submit transport m a _ c url data Ha).
      eexists; split; [reflexivity|]; split; [apply Hnamed | apply Hset].
    + rewrite (async_entry_submit transport m a _ c url data Ha).
      eexists; split; [reflexivity | apply Hclear].
  - intros s Hs; split.
    + rewrite (sync_entry_submit transport m s _ c url data Hs).
      eexists; split; [reflexivity|].
      rewrite waitForResponse_snd; split; [apply Hnamed | apply Hset].
    + rewrite (sync_entry_submit transport m s _ c url data Hs).
      eexists; split; [reflexivity|].
      rewrite waitForResponse_snd; apply Hclear.
Qed.

Lemma token_is_shared_witness :
  qstr "abc" <> []
  /\ asyncEntryPoint okTransport GET = Some (AsyncUrl (get okTransport))
  /\ distinctNames (instanceNames (headers (new_with_headers basicAuthHeaders)))
     = true
  /\ nonEmptyNames (instanceNames (headers (new_with_headers basicAuthHeaders)))
     = true
  /\ (exists reply,
         manager (callAsync (AsyncUrl (get okTransport))
                    (setBearerToken (qstr "abc") freshProcess)
                    (new_with_headers basicAuthHeaders)
                    (qstr "http://localhost/") [])
         = manager (new_with_headers basicAuthHeaders) ++ [reply]
         /\ QNetworkRequest.rawHeaders (QNetworkReply.request reply)
            = [ (bytes "X-Api-Version", bytes "2")
              ; (bytes "Authorization", bytes "Bearer abc") ])
  /\ (exists reply,
         manager (callAsync (AsyncUrl (get okTransport))
                    (setBearerToken [] (setBearerToken (qstr "abc") freshProcess))
                    (new_with_headers basicAuthHeaders)
                    (qstr "http://localhost/") [])
         = manager (new_with_headers basicAuthHeaders) ++ [reply]
         /\ QNetworkRequest.rawHeaders (QNetworkReply.request reply)
            = [ (bytes "Authorization", bytes "Basic dXNlcjpwdw==")
              ; (bytes "X-Api-Version", bytes "2") ]).
Proof.
  assert (H : qstr "abc" <> []) by discriminate.
  assert (Hd : distinctNames
                 (instanceNames (headers (new_with_headers basicAuthHeaders)))
               = true) by (vm_compute; reflexivity).
  assert (Hn : nonEmptyNames
                 (instanceNames (headers (new_with_headers basicAuthHeaders)))
               = true) by (vm_compute; reflexivity).
  split; [exact H|]; split; [reflexivity|]; split; [exact Hd|]; split; [exact Hn|].
  destruct (proj1 (token_is_shared okTransport GET (qstr "abc") freshProcess
                     (new_with_headers basicAuthHeaders)
                     (qstr "http://localhost/") [] H)
                  _ eq_refl)
    as [[reply1 [Hm1 [_ Hset]]] [reply2 [Hm2 Hclear]]].
  split.
  - exists reply1; split; [exact Hm1|].
    rewrite (Hset Hd Hn); vm_compute; reflexivity.
  - exists reply2; split; [exact Hm2|].
    rewrite (Hclear Hd Hn); vm_compute; reflexivity.
Defined.

(** X10.  Root certificates accumulate.  Two calls of [setRootCA] that return
    have read both files, and the CA certificates of the default
    configuration are then the earlier ones followed by the two new
    certificates in call order: nothing is removed and nothing is merged,
    even when both files are the same.  The bearer token is left as it was,
    and setting the token before or after installing a certificate gives the
    same state. *)
Theorem root_certificates_accumulate (fs : QSsl.FileSystem)
        (path1 path2 : QString) (p p1 p2 : Process) :
  setRootCA fs path1 p = Return p1 ->
  setRootCA fs path2 p1 = Return p2 ->
  (exists bytes1 bytes2,
      fs path1 = QSsl.Opened bytes1
      /\ fs path2 = QSsl.Opened bytes2
      /\ QSsl.caCertificates (defaultConfiguration p2)
         = QSsl.caCertificates (defaultConfiguration p)
           ++ [QSsl.Certificate bytes1; QSsl.Certificate bytes2])
  /\ token p2 = token p
  /\ (forall jwtToken,
         setRootCA fs path1 (setBearerToken jwtToken p)
         = Return (setBearerToken jwtToken p1)).
Proof.
  unfold setRootCA.
  destruct (fs path1) as [bytes1|e1]; [|discriminate].
  intros H1; inversion H1; subst p1; clear H1.
  destruct (fs path2) as [bytes2|e2]; [|discriminate].
  intros H2; inversion H2; subst p2; clear H2.
  cbn; split; [|split; reflexivity].
  exists bytes1, bytes2; split; [reflexivity|]; split; [reflexivity|].
  rewrite <- app_assoc; reflexivity.
Qed.

Lemma root_certificates_accumulate_witness :
  setRootCA twoCertificates (qstr "a.pem") freshProcess
  = Return {| token := []
            ; defaultConfiguration :=
                QSsl.mkConfiguration [QSsl.Certificate (bytes "first")] |}
  /\ setRootCA twoCertificates (qstr "b.pem")
       {| token := []
        ; defaultConfiguration :=
            QSsl.mkConfiguration [QSsl.Certificate (bytes "first")] |}
     = Return {| token := []
               ; defaultConfiguration :=
                   QSsl.mkConfiguration [ QSsl.Certificate (bytes "first")
                                        ; QSsl.Certificate (bytes "second") ] |}
  /\ exists bytes1 bytes2,
      twoCertificates (qstr "a.pem") = QSsl.Opened bytes1
      /\ twoCertificates (qstr "b.pem") = QSsl.Opened bytes2
      /\ [ QSsl.Certificate (bytes "first"); QSsl.Certificate (bytes "second") ]
         = [] ++ [QSsl.Certificate bytes1; QSsl.Certificate bytes2].
Proof.
  split; [reflexivity|]; split; [reflexivity|].
  exact (proj1 (root_certificates_accumulate
                  twoCertificates (qstr "a.pem") (qstr "b.pem") freshProcess
                  _ _ eq_refl eq_refl)).
Defined.

(* ===================================================================== *)
(** ** Instance headers whose names clash *)
(* ===================================================================== *)

(** X11.  Of the instance headers whose names are equal up to case, the
    one that comes last in the order of the map decides what is sent under
    that name: after the loop of [setHeaders] the request holds exactly one
    header of that name, with the name and value of the last such entry, or
    none at all when the value of that entry is the null string.  The same
    holds after [setHeaders] as a whole unless the token is non-empty and
    the name is Authorization. *)
Theorem last_header_of_a_name_wins (before after : QMap)
        (key : QString) (value : nullable QString)
        (request : QNetworkRequest.t) :
  isEmpty (toLocal8Bit key) = false ->
  existsb (fun n => QNetworkRequest.sameHeaderName n (toLocal8Bit key))
          (instanceNames after) = false ->
  QNetworkRequest.headersNamed (toLocal8Bit key)
    (setHeaders_loop (before ++ (key, value) :: after) request)
  = headerSent key value
  /\ (forall token : QString,
         token = []
         \/ QNetworkRequest.sameHeaderName Authorization (toLocal8Bit key) = false ->
         QNetworkRequest.headersNamed (toLocal8Bit key)
           (setHeaders token (before ++ (key, value) :: after) request)
         = headerSent key value).
Proof.
  intros Hkey Hafter.
  pose proof (headersNamed_last_entry before after key value request Hkey Hafter)
    as Hloop.
  split; [exact Hloop|].
  intros token [-> | Hauth]; [exact Hloop|].
  unfold setHeaders; destruct (negb (isEmpty token)); [|exact Hloop].
  rewrite (headersNamed_setRawHeader_ne _ _ _ _ Hauth); exact Hloop.
Qed.

Lemma last_header_of_a_name_wins_witness :
  isEmpty (toLocal8Bit (qstr "accept")) = false
  /\ existsb (fun n => QNetworkRequest.sameHeaderName n (toLocal8Bit (qstr "accept")))
             (instanceNames [(qstr "x-api-version", Some (qstr "2"))]) = false
  /\ QNetworkRequest.headersNamed (toLocal8Bit (qstr "accept"))
       (setHeaders (qstr "abc")
          ([(qstr "Accept", Some (qstr "text/html"))]
           ++ (qstr "accept", Some (qstr "application/json"))
              :: [(qstr "x-api-version", Some (qstr "2"))])
          (QNetworkRequest.new localhost))
     = [(bytes "accept", bytes "application/json")]
  /\ QNetworkRequest.headersNamed (toLocal8Bit (qstr "accept"))
       (setHeaders (qstr "abc")
          ([(qstr "Accept", Some (qstr "text/html"))]
           ++ (qstr "accept", None)
              :: [(qstr "x-api-version", Some (qstr "2"))])
          (QNetworkRequest.new localhost))
     = [].
Proof.
  assert (H1 : isEmpty (toLocal8Bit (qstr "accept")) = false)
    by (vm_compute; reflexivity).
  assert (H2 : existsb (fun n => QNetworkRequest.sameHeaderName
                                   n (toLocal8Bit (qstr "accept")))
                       (instanceNames [(qstr "x-api-version", Some (qstr "2"))])
               = false)
    by (vm_compute; reflexivity).
  assert (H3 : QNetworkRequest.sameHeaderName
                 Authorization (toLocal8Bit (qstr "accept")) = false)
    by (vm_compute; reflexivity).
  split; [exact H1|]; split; [exact H2|]; split.
  - refine (eq_trans
              (proj2 (last_header_of_a_name_wins
                        [(qstr "Accept", Some (qstr "text/html"))]
                        [(qstr "x-api-version", Some (qstr "2"))]
                        (qstr "accept") (Some (qstr "application/json"))
                        (QNetworkRequest.new localhost) H1 H2)
                     (qstr "abc") (or_intror H3)) _).
    vm_compute; reflexivity.
  - exact (proj2 (last_header_of_a_name_wins
                    [(qstr "Accept", Some (qstr "text/html"))]
                    [(qstr "x-api-version", Some (qstr "2"))]
                    (qstr "accept") None
                    (QNetworkRequest.new localhost) H1 H2)
                 (qstr "abc") (or_intror H3)).
Defined.

(** Two instance headers that differ in case only: the later one is sent;
    and when the later one has the null string as its value, neither is. *)
Example later_header_sent :
  QNetworkRequest.rawHeaders
    (setHeaders []
       [ (qstr "Accept", Some (qstr "text/html"))
       ; (qstr "accept", Some (qstr "application/json"))
       ; (qstr "x-api-version", Some (qstr "2")) ]
       (QNetworkRequest.new localhost))
  = [ (bytes "accept", bytes "application/json")
    ; (bytes "x-api-version", bytes "2") ]
  /\ QNetworkRequest.rawHeaders
       (setHeaders [] nullValueHeaders (QNetworkRequest.new localhost))
     = [ (bytes "X-Api-Version", bytes "2") ].
Proof. split; vm_compute; reflexivity. Qed.
